(** * pls-wot: identity session, profile directory and zap-invoice flow

    A shallow embedding of [src/lib/nostr.ts].  The module keeps one
    process-wide svelte store holding the keys of the signed-in user, mirrors
    the secret key into one [sessionStorage] slot, caches profile metadata in
    a module-level array and builds LNURL zap invoices.

    JavaScript exceptions and rejected promises are values of [JsResult];
    every operation threads the [World] explicitly, and keeps the effects it
    performed before an exception was raised.  The asynchronous functions are
    run to completion one after the other (the single-threaded cooperative
    model of the program).

    Third-party code (nostr-tools, the browser, the NIP-07 extension, the
    relays and the HTTP endpoints) is not part of the repository: it is
    gathered in the record [Env], and the general theorems hold for every
    [Env].  The module [Scenario] gives concrete collaborators for the
    examples.

    A text is the sequence of its UTF-16 code units, taken below 256 (one
    [ascii] per code unit), so that lengths and positions are those
    JavaScript sees.  A number is a whole number of magnitude at most 2^53
    (a safe integer), on which the arithmetic of the program is exact; the
    theorems that read the digits of an amount say so ([safe_amount]). *)

From Stdlib Require Import ZArith NArith List String Ascii Bool Lia.
From Stdlib Require Import Strings.Byte Numbers.DecimalString.
From Stdlib Require Import Sorting.Permutation.
Import ListNotations.

Set Warnings "-register-all".

Local Open Scope list_scope.
Local Open Scope string_scope.

(* ================================================================== *)
(** ** JavaScript values used by the module *)

(** [if (s)] on a string: only the empty string is falsy. *)
Definition truthy (s : string) : bool :=
  match s with
  | EmptyString => false
  | String _ _ => true
  end.

(** [if (x)] on [string | null | undefined]. *)
Definition truthy_opt (o : option string) : bool :=
  match o with
  | Some s => truthy s
  | None => false
  end.

(** An [Error] object: its [name] and its [message]. *)
Record JsError : Type := mkError {
  err_name : string;
  err_message : string
}.

(** The engine's error for a property read on [null] or [undefined]; only the
    name is fixed by the language, the message names the expression. *)
Definition TypeError (what : string) : JsError := mkError "TypeError" what.

(** A plain [Error(msg)] whose [name] was then overwritten. *)
Definition NamedError (name msg : string) : JsError := mkError name msg.

Inductive JsResult (A : Type) : Type :=
| Ok (a : A)
| Throw (e : JsError).
Arguments Ok {A} a.
Arguments Throw {A} e.

(** [n.toString()] for a safe integer: plain decimal digits, with a minus
    sign below zero.  (Numbers are whole here: the amounts are whole sats
    and the clock counts whole milliseconds, so [Math.floor] of a product
    is the product and of a quotient is [Z.div].  From 1e21 on JavaScript
    prints an exponent, and beyond 2^53 products round: such numbers are
    outside the model.) *)
Definition Number_toString (z : Z) : string :=
  NilZero.string_of_int (Z.to_int z).

Definition newline : string := String (ascii_of_nat 10) EmptyString.

(* ------------------------------------------------------------------ *)
(** *** Buffer: hex decoding and encoding *)

Definition hexCharValue (c : ascii) : option N :=
  let n := N_of_ascii c in
  if ((48 <=? n) && (n <=? 57))%N then Some (n - 48)%N
  else if ((97 <=? n) && (n <=? 102))%N then Some (n - 87)%N
  else if ((65 <=? n) && (n <=? 70))%N then Some (n - 55)%N
  else None.

(** White space for [parseInt], among the code units below 256: TAB, LF,
    VT, FF, CR, space and the no-break space. *)
Definition isWhiteSpace (c : ascii) : bool :=
  let n := N_of_ascii c in
  (((9 <=? n) && (n <=? 13)) || (n =? 32) || (n =? 160))%N.

Fixpoint trimStart (s : string) : string :=
  match s with
  | EmptyString => EmptyString
  | String c rest => if isWhiteSpace c then trimStart rest else s
  end.

(** The value of the longest prefix of hex digits, [None] when it is
    empty. *)
Fixpoint hexDigitsValue (s : string) (acc : option N) : option N :=
  match s with
  | EmptyString => acc
  | String c rest =>
      match hexCharValue c with
      | Some d =>
          hexDigitsValue rest
            (Some (16 * match acc with Some a => a | None => 0 end + d)%N)
      | None => acc
      end
  end.

(** [parseInt(s, 16)]: leading white space is skipped, then one sign, then
    a prefix 0x or 0X, and the longest run of hex digits is read; what
    follows it is ignored.  [None] is NaN (no digit was read). *)
Definition parseInt16 (s : string) : option Z :=
  let s1 := trimStart s in
  let signed :=
    match s1 with
    | String c rest =>
        if (N_of_ascii c =? 45)%N then ((-1)%Z, rest)
        else if (N_of_ascii c =? 43)%N then (1%Z, rest)
        else (1%Z, s1)
    | EmptyString => (1%Z, s1)
    end in
  let s2 :=
    match snd signed with
    | String z (String x rest) =>
        if ((N_of_ascii z =? 48) &&
            ((N_of_ascii x =? 120) || (N_of_ascii x =? 88)))%N
        then rest else snd signed
    | _ => snd signed
    end in
  match hexDigitsValue s2 None with
  | Some n => Some (fst signed * Z.of_N n)%Z
  | None => None
  end.

(** Storing a number in a [Uint8Array]: modulo 256. *)
Definition toUint8 (v : Z) : byte :=
  byte_of_ascii (ascii_of_N (Z.to_N (v mod 256))).

(** [Buffer.from(s, 'hex')] of the npm package buffer, the one a browser
    bundle gets for [import { Buffer } from 'buffer']: one byte for each
    pair of code units, read with [parseInt(pair, 16)]; decoding stops at
    the first pair that gives NaN, and a trailing single code unit is
    dropped.  It never throws.  So a pair such as space-digit or
    digit-letter still gives a byte, and minus-digit wraps around. *)
Fixpoint Buffer_from_hex (s : string) : list byte :=
  match s with
  | String a (String b rest) =>
      match parseInt16 (String a (String b EmptyString)) with
      | Some v => toUint8 v :: Buffer_from_hex rest
      | None => []
      end
  | _ => []
  end.

Definition hexDigit (n : N) : ascii :=
  if (n <? 10)%N then ascii_of_N (48 + n) else ascii_of_N (87 + n).

(** [Buffer.from(bytes).toString('hex')]: two lowercase digits per byte. *)
Fixpoint Buffer_toString_hex (bs : list byte) : string :=
  match bs with
  | [] => ""
  | b :: rest =>
      let n := Byte.to_N b in
      String (hexDigit (n / 16)) (String (hexDigit (n mod 16))
        (Buffer_toString_hex rest))
  end.

(** A [Uint8Array] inside a template literal: its elements in decimal,
    separated by commas. *)
Fixpoint Uint8Array_toString (bs : list byte) : string :=
  match bs with
  | [] => ""
  | [b] => NilZero.string_of_uint (N.to_uint (Byte.to_N b))
  | b :: rest =>
      NilZero.string_of_uint (N.to_uint (Byte.to_N b)) ++ "," ++
      Uint8Array_toString rest
  end.

(* ------------------------------------------------------------------ *)
(** *** Events *)

(** The value of the svelte store: [{ privkey?: string; pubkey: string }]. *)
Record Keys : Type := mkKeys {
  privkey : option string;
  pubkey : string
}.

(** [EventTemplate] of nostr-tools. *)
Record EventTemplate : Type := mkTemplate {
  t_kind : Z;
  t_created_at : Z;
  t_content : string;
  t_tags : list (list string)
}.

(** The [blankEvent] handed to the extension: a template plus [pubkey],
    without [id] and [sig]. *)
Record UnsignedEvent : Type := mkUnsigned {
  u_kind : Z;
  u_content : string;
  u_created_at : Z;
  u_tags : list (list string);
  u_pubkey : string
}.

(** A signed [Event]. *)
Record Event : Type := mkEvent {
  ev_id : string;
  ev_pubkey : string;
  ev_created_at : Z;
  ev_kind : Z;
  ev_tags : list (list string);
  ev_content : string;
  ev_sig : string
}.

(** JSON documents (integral numbers only). *)
Inductive JSON : Type :=
| JNull
| JBool (b : bool)
| JNum (z : Z)
| JStr (s : string)
| JArr (items : list JSON)
| JObj (fields : list (string * JSON)).

(** The relay filter built by [getProfileMetadata]. *)
Record Filter : Type := mkFilter {
  kinds : list Z;
  authors : list string;
  limit : nat
}.

(** [Metadata] of nostr-tools/kinds. *)
Definition Metadata : Z := 0.

(** The argument object of [makeZapRequest]. *)
Record ZapRequestArgs : Type := mkZapArgs {
  zr_profile : string;
  zr_event : string;
  zr_amount : Z;
  zr_relays : list string;
  zr_comment : string
}.

(** The parts of a [URL] object the flow reads. *)
Record URL : Type := mkURL {
  protocol : string;
  host : string;
  pathname : string;
  searchParams : list (string * string)
}.

(** A [Response]: [ok] is derived from the status, [json()] may reject. *)
Record Response : Type := mkResponse {
  status : nat;
  body_json : JsResult JSON
}.

Definition ok (r : Response) : bool :=
  (200 <=? status r)%nat && (status r <=? 299)%nat.

(* ------------------------------------------------------------------ *)
(** *** JSON.stringify *)

Definition dquote : string := String (ascii_of_nat 34) EmptyString.
Definition backslash : string := String (ascii_of_nat 92) EmptyString.

Fixpoint join (sep : string) (l : list string) : string :=
  match l with
  | [] => ""
  | [x] => x
  | x :: rest => x ++ sep ++ join sep rest
  end.

(** One character of QuoteJSONString. *)
Definition quoteJSONChar (c : ascii) : string :=
  let n := N_of_ascii c in
  if (n =? 34)%N then backslash ++ dquote
  else if (n =? 92)%N then backslash ++ backslash
  else if (n =? 8)%N then backslash ++ "b"
  else if (n =? 9)%N then backslash ++ "t"
  else if (n =? 10)%N then backslash ++ "n"
  else if (n =? 12)%N then backslash ++ "f"
  else if (n =? 13)%N then backslash ++ "r"
  else if (n <? 32)%N then
    backslash ++ "u00" ++
    String (hexDigit (n / 16)) (String (hexDigit (n mod 16)) "")
  else String c "".

Fixpoint quoteJSONBody (s : string) : string :=
  match s with
  | EmptyString => ""
  | String c rest => quoteJSONChar c ++ quoteJSONBody rest
  end.

Definition quoteJSONString (s : string) : string :=
  dquote ++ quoteJSONBody s ++ dquote.

Fixpoint JSON_stringify (j : JSON) : string :=
  match j with
  | JNull => "null"
  | JBool true => "true"
  | JBool false => "false"
  | JNum z => Number_toString z
  | JStr s => quoteJSONString s
  | JArr items => "[" ++ join "," (map JSON_stringify items) ++ "]"
  | JObj fields =>
      "{" ++ join ","
        (map (fun kv => quoteJSONString (fst kv) ++ ":" ++
                        JSON_stringify (snd kv)) fields) ++ "}"
  end.

(** The own properties of an [EventTemplate] object, in the order the
    object literal of nostr-tools creates them. *)
Definition JSON_of_EventTemplate (t : EventTemplate) : JSON :=
  JObj [ ("kind", JNum (t_kind t));
         ("created_at", JNum (t_created_at t));
         ("content", JStr (t_content t));
         ("tags", JArr (map (fun tag => JArr (map JStr tag)) (t_tags t))) ]%list.

(* ------------------------------------------------------------------ *)
(** *** Plain objects with string values, and URLSearchParams *)

(** An object literal as the list of its own properties in creation order. *)
Definition JsObject : Type := list (string * string).

(** Defining a property: an existing key keeps its place. *)
Fixpoint obj_set (k v : string) (o : JsObject) : JsObject :=
  match o with
  | [] => [(k, v)]
  | (k', v') :: rest =>
      if String.eqb k' k then (k', v) :: rest
      else (k', v') :: obj_set k v rest
  end%list.

Definition Object_fromEntries (entries : list (string * string)) : JsObject :=
  fold_left (fun o kv => obj_set (fst kv) (snd kv) o) entries []%list.

Fixpoint digitsValue (s : string) (acc : N) : option N :=
  match s with
  | EmptyString => Some acc
  | String c rest =>
      let n := N_of_ascii c in
      if ((48 <=? n) && (n <=? 57))%N
      then digitsValue rest (10 * acc + (n - 48))%N
      else None
  end.

(** A property key that is an array index: a canonical decimal numeral
    below 2^32 - 1. *)
Definition arrayIndex (k : string) : option N :=
  match k with
  | EmptyString => None
  | String c rest =>
      if (N_of_ascii c =? 48)%N && truthy rest then None
      else match digitsValue k 0 with
           | Some n => if (n <? 4294967295)%N then Some n else None
           | None => None
           end
  end.

Fixpoint insertIndexed (n : N) (kv : string * string)
    (l : list (N * (string * string))) : list (N * (string * string)) :=
  match l with
  | [] => [(n, kv)]
  | (m, kv') :: rest =>
      if (n <? m)%N then (n, kv) :: (m, kv') :: rest
      else (m, kv') :: insertIndexed n kv rest
  end%list.

Fixpoint indexedProps (o : JsObject) : list (N * (string * string)) :=
  match o with
  | [] => []
  | kv :: rest =>
      match arrayIndex (fst kv) with
      | Some n => insertIndexed n kv (indexedProps rest)
      | None => indexedProps rest
      end
  end%list.

Definition namedProps (o : JsObject) : JsObject :=
  filter (fun kv => match arrayIndex (fst kv) with
                    | Some _ => false
                    | None => true
                    end) o.

(** Property enumeration order: array indices ascending, then the other
    keys in creation order.  This is the order in which
    [new URLSearchParams(object)] reads the object. *)
Definition Object_entries (o : JsObject) : list (string * string) :=
  (map snd (indexedProps o) ++ namedProps o)%list.

Definition hexDigitUpper (n : N) : ascii :=
  if (n <? 10)%N then ascii_of_N (48 + n) else ascii_of_N (55 + n).

Definition percentByte (n : N) : string :=
  String "%" (String (hexDigitUpper (n / 16))
                (String (hexDigitUpper (n mod 16)) "")).

(** application/x-www-form-urlencoded serialisation of one code unit: its
    UTF-8 bytes (one below 128, two from 128 to 255), each kept, turned
    into a plus sign, or percent-encoded. *)
Definition urlencodeByte (c : ascii) : string :=
  let n := N_of_ascii c in
  if (n =? 32)%N then "+"
  else if ((n =? 42) || (n =? 45) || (n =? 46) || (n =? 95) ||
           ((48 <=? n) && (n <=? 57)) ||
           ((65 <=? n) && (n <=? 90)) ||
           ((97 <=? n) && (n <=? 122)))%N
  then String c ""
  else if (n <? 128)%N then percentByte n
  else percentByte (192 + n / 64) ++ percentByte (128 + n mod 64).

Fixpoint urlencode (s : string) : string :=
  match s with
  | EmptyString => ""
  | String c rest => urlencodeByte c ++ urlencode rest
  end.

(** [`${params}`] for a [URLSearchParams]. *)
Definition URLSearchParams_toString (params : list (string * string))
  : string :=
  join "&" (map (fun kv => urlencode (fst kv) ++ "=" ++ urlencode (snd kv))
              params).

(* ================================================================== *)
(** ** Collaborators *)

(** The [nip04] member of a NIP-07 extension. *)
Record Nip04Capability : Type := mkNip04 {
  ext_encrypt : string -> string -> JsResult string;
  ext_decrypt : string -> string -> JsResult string
}.

(** [window.nostr], when an extension injected it.  A rejected promise (the
    user declined, the extension failed) is a [Throw]. *)
Record Nip07 : Type := mkNip07 {
  ext_getPublicKey : JsResult string;
  ext_signEvent : UnsignedEvent -> JsResult Event;
  ext_nip04 : option Nip04Capability
}.

(** Everything [nostr.ts] imports or reaches through a global.  Sources of
    fresh data (key generator, clock, relays, HTTP) are indexed by the number
    of earlier calls, so that successive calls may answer differently. *)
Record Env : Type := mkEnv {
  (* nostr-tools *)
  getPublicKey : list byte -> JsResult string;
  generateSecretKey : nat -> list byte;
  finalizeEvent : EventTemplate -> list byte -> JsResult Event;
  nip04_encrypt : string -> string -> string -> JsResult string;
  nip04_decrypt : string -> string -> string -> JsResult string;
  decode : string -> JsResult string;
  getZapEndpoint : Event -> JsResult (option string);
  makeZapRequest : ZapRequestArgs -> JsResult EventTemplate;
  relayPool_get : nat -> list string -> Filter -> JsResult (option Event);
  (* browser *)
  window_nostr : option Nip07;
  Date_now : nat -> Z;
  URL_new : string -> JsResult URL;
  fetch : nat -> string -> JsResult Response
}.

(* ================================================================== *)
(** ** The world the module runs in *)

Record World : Type := mkWorld {
  store : option Keys;              (* the svelte [writable] *)
  sessionStorage : option string;   (* the item 'private-key' *)
  profilesMetadata : list Event;    (* the module-level cache *)
  clipboard : list string;          (* texts given to clipboard.writeText *)
  alerts : list string;             (* messages shown with alert *)
  console_errors : list (string * JsError);
  keygen_calls : nat;               (* calls of generateSecretKey *)
  clock_reads : nat;                (* calls of Date.now *)
  relay_queries : nat;              (* calls of relayPool.get *)
  fetch_calls : list string;        (* URLs this module fetched *)
  json_calls : nat                  (* calls of Response.json *)
}.

Definition with_store (v : option Keys) (w : World) : World :=
  mkWorld v (sessionStorage w) (profilesMetadata w) (clipboard w) (alerts w)
    (console_errors w) (keygen_calls w) (clock_reads w) (relay_queries w)
    (fetch_calls w) (json_calls w).

Definition with_sessionStorage (v : option string) (w : World) : World :=
  mkWorld (store w) v (profilesMetadata w) (clipboard w) (alerts w)
    (console_errors w) (keygen_calls w) (clock_reads w) (relay_queries w)
    (fetch_calls w) (json_calls w).

Definition with_profilesMetadata (v : list Event) (w : World) : World :=
  mkWorld (store w) (sessionStorage w) v (clipboard w) (alerts w)
    (console_errors w) (keygen_calls w) (clock_reads w) (relay_queries w)
    (fetch_calls w) (json_calls w).

Definition with_clipboard (v : list string) (w : World) : World :=
  mkWorld (store w) (sessionStorage w) (profilesMetadata w) v (alerts w)
    (console_errors w) (keygen_calls w) (clock_reads w) (relay_queries w)
    (fetch_calls w) (json_calls w).

Definition with_alerts (v : list string) (w : World) : World :=
  mkWorld (store w) (sessionStorage w) (profilesMetadata w) (clipboard w) v
    (console_errors w) (keygen_calls w) (clock_reads w) (relay_queries w)
    (fetch_calls w) (json_calls w).

Definition with_console_errors (v : list (string * JsError)) (w : World)
  : World :=
  mkWorld (store w) (sessionStorage w) (profilesMetadata w) (clipboard w)
    (alerts w) v (keygen_calls w) (clock_reads w) (relay_queries w)
    (fetch_calls w) (json_calls w).

Definition with_keygen_calls (v : nat) (w : World) : World :=
  mkWorld (store w) (sessionStorage w) (profilesMetadata w) (clipboard w)
    (alerts w) (console_errors w) v (clock_reads w) (relay_queries w)
    (fetch_calls w) (json_calls w).

Definition with_clock_reads (v : nat) (w : World) : World :=
  mkWorld (store w) (sessionStorage w) (profilesMetadata w) (clipboard w)
    (alerts w) (console_errors w) (keygen_calls w) v (relay_queries w)
    (fetch_calls w) (json_calls w).

Definition with_relay_queries (v : nat) (w : World) : World :=
  mkWorld (store w) (sessionStorage w) (profilesMetadata w) (clipboard w)
    (alerts w) (console_errors w) (keygen_calls w) (clock_reads w) v
    (fetch_calls w) (json_calls w).

Definition with_fetch_calls (v : list string) (w : World) : World :=
  mkWorld (store w) (sessionStorage w) (profilesMetadata w) (clipboard w)
    (alerts w) (console_errors w) (keygen_calls w) (clock_reads w)
    (relay_queries w) v (json_calls w).

Definition with_json_calls (v : nat) (w : World) : World :=
  mkWorld (store w) (sessionStorage w) (profilesMetadata w) (clipboard w)
    (alerts w) (console_errors w) (keygen_calls w) (clock_reads w)
    (relay_queries w) (fetch_calls w) v.

(* ------------------------------------------------------------------ *)
(** *** Computations: state passing with exceptions *)

Definition Js (A : Type) : Type := World -> JsResult A * World.

Definition ret {A} (a : A) : Js A := fun w => (Ok a, w).

Definition throw {A} (e : JsError) : Js A := fun w => (Throw e, w).

Definition bind {A B} (m : Js A) (k : A -> Js B) : Js B :=
  fun w =>
    match m w with
    | (Ok a, w') => k a w'
    | (Throw e, w') => (Throw e, w')
    end.

(** [try { m } catch (error) { h error }] *)
Definition try_catch {A} (m : Js A) (h : JsError -> Js A) : Js A :=
  fun w =>
    match m w with
    | (Ok a, w') => (Ok a, w')
    | (Throw e, w') => h e w'
    end.

(** The outcome of a call into a collaborator. *)
Definition lift {A} (r : JsResult A) : Js A := fun w => (r, w).

Definition gets {A} (f : World -> A) : Js A := fun w => (Ok (f w), w).

Definition modify (f : World -> World) : Js unit := fun w => (Ok tt, f w).

Declare Scope js_scope.
Delimit Scope js_scope with js.
Notation "x <- m ;; k" := (bind m (fun x => k))
  (at level 61, m at next level, right associativity) : js_scope.
Notation "m ;; k" := (bind m (fun _ => k))
  (at level 61, right associativity) : js_scope.
Local Open Scope js_scope.

(* ================================================================== *)
(** ** The module *)

Definition relayList : list string :=
  [ "wss://nostr-pub.wellorder.net";
    "wss://relay.nostr.band";
    "wss://relay.damus.io";
    "wss://nostr.fmt.wiz.biz";
    "wss://offchain.pub";
    "wss://relay.current.fyi";
    "wss://nos.lol" ]%list.

Section Module.

Variable E : Env.

(* ------------------------------------------------------------------ *)
(** *** nostrAuth *)

(** The subscriber registered at line 44:
    [if (keys?.privkey) sessionStorage.setItem('private-key', keys.privkey)] *)
Definition persist (keys : option Keys) (w : World) : World :=
  match keys with
  | Some k =>
      match privkey k with
      | Some sk => if truthy sk then with_sessionStorage (Some sk) w else w
      | None => w
      end
  | None => w
  end.

(** [store.set(v)]: the value is replaced and the subscriber runs. *)
Definition store_set (v : option Keys) : Js unit :=
  modify (fun w => persist v (with_store v w)).

(** Evaluation of the module body (lines 33-46): the slot is read, the store
    is created from it, and [store.subscribe] calls the subscriber once with
    the initial value.  [getPublicKey] may throw, and then the module does
    not load. *)
Definition nostrAuth_init : Js unit :=
  initialPrivateKey <- gets sessionStorage ;;
  initial <-
    (match initialPrivateKey with
     | Some sk =>
         if truthy sk then
           pk <- lift (getPublicKey E (Buffer_from_hex sk)) ;;
           ret (Some (mkKeys (Some sk) pk))
         else ret None
     | None => ret None
     end) ;;
  modify (fun w => persist initial (with_store initial w)).

(** A process restart: module-level state is lost, [sessionStorage] and the
    outside world stay, and the module body runs again. *)
Definition restart : Js unit :=
  modify (fun w => with_profilesMetadata [] (with_store None w)) ;;
  nostrAuth_init.

Definition advisory : string :=
  "Using a nostr extension such as getalby.com is recommended, but a keypair was copied to your clipboard so you can try out PLS without it".

Definition loginWithRandomKeys : Js bool :=
  n <- gets keygen_calls ;;
  modify (with_keygen_calls (S n)) ;;
  let privkey := generateSecretKey E n in
  let privkeyStr := Buffer_toString_hex privkey in
  pubkey <- lift (getPublicKey E privkey) ;;
  let text := "private key: " ++ Uint8Array_toString privkey ++ newline ++
              "public key: " ++ pubkey in
  modify (fun w => with_clipboard (clipboard w ++ [text])%list w) ;;
  modify (fun w => with_alerts (alerts w ++ [advisory])%list w) ;;
  store_set (Some (mkKeys (Some privkeyStr) pubkey)) ;;
  ret true.

Definition nostrNowBasic : Js Z :=
  n <- gets clock_reads ;;
  modify (with_clock_reads (S n)) ;;
  ret (Date_now E n / 1000)%Z.

Definition makeNostrEvent (privkey : string) (kind : Z) (content : string)
    (tags : list (list string)) : Js Event :=
  now <- nostrNowBasic ;;
  lift (finalizeEvent E (mkTemplate kind now content tags)
          (Buffer_from_hex privkey)).

Definition signOut : Js unit :=
  store_set None ;;
  modify (with_sessionStorage None).

Definition loginWithPrivkey (privkey : string) : Js unit :=
  pubkey <- lift (getPublicKey E (Buffer_from_hex privkey)) ;;
  store_set (Some (mkKeys (Some privkey) pubkey)).

Definition getPrivkey : Js (option string) :=
  gets (fun w => match store w with Some k => privkey k | None => None end).

Definition getPubkey : Js (option string) :=
  gets (fun w => option_map pubkey (store w)).

Definition tryLogin : Js bool :=
  current <- getPubkey ;;
  if truthy_opt current then ret true
  else
    match window_nostr E with
    | Some ext =>
        try_catch
          (pubkey <- lift (ext_getPublicKey ext) ;;
           store_set (Some (mkKeys None pubkey)) ;;
           ret true)
          (fun _ => loginWithRandomKeys)
    | None => loginWithRandomKeys
    end.

(** [window.nostr!.nip04]: a property read that throws a TypeError when
    [window.nostr] or its [nip04] member is undefined. *)
Definition window_nostr_nip04 : Js Nip04Capability :=
  match window_nostr E with
  | None => throw (TypeError "window.nostr is undefined")
  | Some ext =>
      match ext_nip04 ext with
      | None => throw (TypeError "window.nostr.nip04 is undefined")
      | Some cap => ret cap
      end
  end.

Definition encryptDM (otherPubkey text : string) : Js string :=
  privkey <- getPrivkey ;;
  match privkey with
  | Some sk =>
      if truthy sk then lift (nip04_encrypt E sk otherPubkey text)
      else cap <- window_nostr_nip04 ;; lift (ext_encrypt cap otherPubkey text)
  | None => cap <- window_nostr_nip04 ;; lift (ext_encrypt cap otherPubkey text)
  end.

Definition decryptDM (otherPubkey text : string) : Js string :=
  privkey <- getPrivkey ;;
  match privkey with
  | Some sk =>
      if truthy sk then lift (nip04_decrypt E sk otherPubkey text)
      else cap <- window_nostr_nip04 ;; lift (ext_decrypt cap otherPubkey text)
  | None => cap <- window_nostr_nip04 ;; lift (ext_decrypt cap otherPubkey text)
  end.

(** The external branch of [makeEvent] (lines 147-155): the blank event is
    built, reading the clock, before [window.nostr] is dereferenced. *)
Definition signWithExtension (pubkey : string) (kind : Z) (content : string)
    (tags : list (list string)) : Js Event :=
  now <- nostrNowBasic ;;
  match window_nostr E with
  | None => throw (TypeError "window.nostr is undefined")
  | Some ext => lift (ext_signEvent ext (mkUnsigned kind content now tags pubkey))
  end.

Definition makeEvent (kind : Z) (content : string) (tags : list (list string))
  : Js Event :=
  keys <- gets store ;;
  match keys with
  | None => throw (TypeError "cannot destructure 'get(store)' as it is null")
  | Some k =>
      match privkey k with
      | Some sk =>
          if truthy sk then makeNostrEvent sk kind content tags
          else signWithExtension (pubkey k) kind content tags
      | None => signWithExtension (pubkey k) kind content tags
      end
  end.

End Module.

Section Flows.

Variable E : Env.

(* ------------------------------------------------------------------ *)
(** *** Profile metadata *)

Definition console_error (msg : string) (e : JsError) : Js unit :=
  modify (fun w => with_console_errors (console_errors w ++ [(msg, e)])%list w).

(** [relayPool.get(relayList, filter)] *)
Definition relayPool_query (f : Filter) : Js (option Event) :=
  n <- gets relay_queries ;;
  modify (with_relay_queries (S n)) ;;
  lift (relayPool_get E n relayList f).

Definition getProfileMetadata (publicKey : string) : Js (option Event) :=
  try_catch
    (cache <- gets profilesMetadata ;;
     match find (fun profile => String.eqb (ev_pubkey profile) publicKey)
                cache with
     | Some getFromCache => ret (Some getFromCache)
     | None =>
         metadataEvent <-
           relayPool_query (mkFilter [Metadata] [publicKey] 1) ;;
         match metadataEvent with
         | Some ev =>
             modify (fun w =>
               with_profilesMetadata (profilesMetadata w ++ [ev])%list w)
         | None => ret tt
         end ;;
         ret metadataEvent
     end)
    (fun error =>
       console_error "Unable get profile metadata" error ;;
       ret None).

(* ------------------------------------------------------------------ *)
(** *** Zap invoices *)

Definition ProfileMetadataError : JsError :=
  NamedError "ProfileMetadata" "Unable get profile metadata".

Definition ZapEndpointError : JsError :=
  NamedError "ZapEndpoint" "Unable get profile LUD-16".

Definition InvoiceRequestError : JsError :=
  NamedError "InvoiceRequest" "Unable to make request invoice".

Definition VerifyRequestError : JsError :=
  NamedError "VerifyRequest" "Unable to make verify invoice request".

(** [fetch(url)] issued by this module. *)
Definition fetch_url (url : string) : Js Response :=
  n <- gets (fun w => List.length (fetch_calls w)) ;;
  modify (fun w => with_fetch_calls (fetch_calls w ++ [url])%list w) ;;
  lift (fetch E n url).

(** [response.json()] *)
Definition Response_json (r : Response) : Js JSON :=
  modify (fun w => with_json_calls (S (json_calls w)) w) ;;
  lift (body_json r).

(** The object given to [new URLSearchParams] at lines 222-227.  The amount
    is a whole number of sats: within [safe_amount] the product by 1000 is
    exact, [Math.floor] leaves it as it is and [toString] prints its
    decimal digits. *)
Definition invoiceParams (callbackUrl : URL) (message : string) (amount : Z)
    (zapRequestEvent : EventTemplate) : list (string * string) :=
  Object_entries
    (obj_set "nostr" (JSON_stringify (JSON_of_EventTemplate zapRequestEvent))
      (obj_set "amount" (Number_toString (amount * 1000))
        (obj_set "comment" (if truthy message then message else "")
          (Object_fromEntries (searchParams callbackUrl))))).

Definition invoiceUrl (callbackUrl : URL) (message : string) (amount : Z)
    (zapRequestEvent : EventTemplate) : string :=
  let baseUrl :=
    protocol callbackUrl ++ "//" ++ host callbackUrl ++ pathname callbackUrl in
  baseUrl ++ "?" ++
  URLSearchParams_toString
    (invoiceParams callbackUrl message amount zapRequestEvent).

Definition createInvoice (destination message : string) (amount : Z)
    (eventId : string) : Js JSON :=
  try_catch
    (publicKey <- lift (decode E destination) ;;
     profileMetadata <- getProfileMetadata publicKey ;;
     match profileMetadata with
     | None => throw ProfileMetadataError
     | Some metadata =>
         zapEndpoint <- lift (getZapEndpoint E metadata) ;;
         match zapEndpoint with
         | None => throw ZapEndpointError
         | Some endpoint =>
             if negb (truthy endpoint) then throw ZapEndpointError
             else
               zapRequestEvent <-
                 lift (makeZapRequest E
                         (mkZapArgs publicKey eventId amount relayList
                            message)) ;;
               callbackUrl <- lift (URL_new E endpoint) ;;
               invoiceRequest <-
                 fetch_url (invoiceUrl callbackUrl message amount
                              zapRequestEvent) ;;
               if negb (ok invoiceRequest) then throw InvoiceRequestError
               else Response_json invoiceRequest
         end
     end)
    (fun error =>
       console_error "Unable to create invoice" error ;;
       throw error).

Definition checkPayment (verify : string) : Js JSON :=
  try_catch
    (verifyRequest <- fetch_url verify ;;
     if negb (ok verifyRequest) then throw VerifyRequestError
     else Response_json verifyRequest)
    (fun error =>
       console_error "Unable to verify payment" error ;;
       throw error).

End Flows.

(* ================================================================== *)
(** ** The session as the specification sees it *)

Inductive SigningStrategy : Type :=
| LocalKey (secretKeyHex : string)
| ExternalSigner.

Inductive Session : Type :=
| LoggedOut
| Active (strategy : SigningStrategy) (publicKey : string).

(** The store read the way [makeEvent], [encryptDM] and [decryptDM]
    dispatch on it: a truthy [privkey] selects the local key. *)
Definition session (w : World) : Session :=
  match store w with
  | None => LoggedOut
  | Some k =>
      match privkey k with
      | Some sk =>
          if truthy sk then Active (LocalKey sk) (pubkey k)
          else Active ExternalSigner (pubkey k)
      | None => Active ExternalSigner (pubkey k)
      end
  end.

Fixpoint allHex (s : string) : bool :=
  match s with
  | EmptyString => true
  | String c rest =>
      match hexCharValue c with
      | Some _ => allHex rest
      | None => false
      end
  end.

(** The text is the hex encoding of 32 bytes: 64 hex digits. *)
Definition hex32 (s : string) : bool :=
  (String.length s =? 64)%nat && allHex s.

(** [hex] is a valid hex secret key whose public key is [pk]: 64 hex digits
    that the key derivation of the library accepts. *)
Definition valid_secret_hex (E : Env) (hex pk : string) : Prop :=
  hex32 hex = true /\ getPublicKey E (Buffer_from_hex hex) = Ok pk.

(** The key generator only returns keys the derivation accepts. *)
Definition keygen_sound (E : Env) : Prop :=
  forall n, exists pk, getPublicKey E (generateSecretKey E n) = Ok pk.

(** Two worlds that differ at most in the module-level state (the store
    and the cache). *)
Definition same_outside (w w' : World) : Prop :=
  sessionStorage w' = sessionStorage w /\
  clipboard w' = clipboard w /\
  alerts w' = alerts w /\
  console_errors w' = console_errors w /\
  keygen_calls w' = keygen_calls w /\
  clock_reads w' = clock_reads w /\
  relay_queries w' = relay_queries w /\
  fetch_calls w' = fetch_calls w /\
  json_calls w' = json_calls w.

(** The cache entry [getProfileMetadata] finds for a key, if any. *)
Definition cached (publicKey : string) (w : World) : option Event :=
  find (fun profile => String.eqb (ev_pubkey profile) publicKey)
       (profilesMetadata w).

(** The fallback path of [tryLogin] from [w] to [w']: the next generated
    key is signed in, and the user is told once. *)
Definition fallback_login (E : Env) (w w' : World) : Prop :=
  let sk := generateSecretKey E (keygen_calls w) in
  exists pk text,
    getPublicKey E sk = Ok pk /\
    store w' = Some (mkKeys (Some (Buffer_toString_hex sk)) pk) /\
    alerts w' = (alerts w ++ [advisory])%list /\
    clipboard w' = (clipboard w ++ [text])%list /\
    keygen_calls w' = S (keygen_calls w).

(** What [tryLogin] promises about the world it ends in, by the way the
    external signer was discovered. *)
Definition tryLogin_outcome (E : Env) (w w' : World) : Prop :=
  if truthy_opt (option_map pubkey (store w)) then w' = w
  else
    match window_nostr E with
    | Some ext =>
        match ext_getPublicKey ext with
        | Ok pk =>
            store w' = Some (mkKeys None pk) /\
            alerts w' = alerts w /\ clipboard w' = clipboard w
        | Throw _ => fallback_login E w w'
        end
    | None => fallback_login E w w'
    end.

(* ================================================================== *)
(** ** Test doubles

    Concrete collaborators for the examples below.  Each one is a table
    that answers as the real collaborator does on the inputs the examples
    use, and fails elsewhere. *)

Module Scenario.

(** The secret key 1 (big endian, 32 bytes). *)
Definition secretOne : list byte := (repeat x00 31 ++ [x01])%list.

Definition secretOneHex : string :=
  "0000000000000000000000000000000000000000000000000000000000000001".

(** The x coordinate of the secp256k1 generator: the public key of 1. *)
Definition pubkeyOne : string :=
  "79be667ef9dcbbac55a06295ce870b07029bfcdb2dce28d959f2815b16f81798".

Definition getPublicKey (sk : list byte) : JsResult string :=
  if String.eqb (Buffer_toString_hex sk) secretOneHex then Ok pubkeyOne
  else Throw (mkError "Error" "invalid private key").

(** The recipient of the end-to-end scenario and its identifier. *)
Definition P : string :=
  "3bf0c63fcb93463407af97a5e5ee64fa883d107ef9e558472c4eb9aaaefa459d".

Definition recipient : string := "npub-of-P".

Definition decode (destination : string) : JsResult string :=
  if String.eqb destination recipient then Ok P
  else Throw (mkError "Error" "invalid bech32 identifier").

Definition profileOfP : Event :=
  mkEvent "profile-id" P 1700000000 Metadata []
    (JSON_stringify (JObj [("lud16", JStr "alice@pay.example")]%list))
    "profile-sig".

Definition endpoint : string := "https://pay.example/cb?foo=1".

Definition URL_new (s : string) : JsResult URL :=
  if String.eqb s endpoint
  then Ok (mkURL "https:" "pay.example" "/cb" [("foo", "1")]%list)
  else Throw (TypeError "Invalid URL").

Definition now_ms : Z := 1700000000000.

(** Modelled from the spec: the zap-request constructor [makeZapRequest] of
    nostr-tools/nip57, which [nostr.ts] imports and src/ does not contain.
    It builds the unsigned zap request (kind 9734) embedding the recipient,
    the target event id, the amount, the relay list and the comment
    (spec 3, ZapRequest, and 4.5 stage 4), in the tag layout of NIP-57; it
    rejects a missing amount or profile. *)
Definition makeZapRequest (a : ZapRequestArgs) : JsResult EventTemplate :=
  if (zr_amount a =? 0)%Z then Throw (mkError "Error" "amount not given")
  else if negb (truthy (zr_profile a))
  then Throw (mkError "Error" "profile not given")
  else Ok (mkTemplate 9734 (now_ms / 1000) (zr_comment a)
             ([ ["p"; zr_profile a];
                ["amount"; Number_toString (zr_amount a)];
                "relays" :: zr_relays a ] ++
              (if truthy (zr_event a) then [["e"; zr_event a]] else []))%list).

Definition finalizeEvent (t : EventTemplate) (sk : list byte)
  : JsResult Event :=
  match getPublicKey sk with
  | Ok pk =>
      Ok (mkEvent "event-id" pk (t_created_at t) (t_kind t) (t_tags t)
            (t_content t) "event-sig")
  | Throw e => Throw e
  end.

Definition nip04_encrypt (sk other text : string) : JsResult string :=
  Ok ("local-ciphertext?iv=local-iv").

Definition nip04_decrypt (sk other text : string) : JsResult string :=
  Ok ("local-plaintext").

(** The environment of an example: the extension, the relays, the LNURL
    lookup and the HTTP endpoints vary, the rest is fixed. *)
Definition env (ext : option Nip07)
    (relay : nat -> list string -> Filter -> JsResult (option Event))
    (lnurl : Event -> JsResult (option string))
    (http : nat -> string -> JsResult Response) : Env :=
  mkEnv getPublicKey (fun _ => secretOne) finalizeEvent nip04_encrypt
    nip04_decrypt decode lnurl makeZapRequest relay ext
    (fun _ => now_ms) URL_new http.

(** An extension that answers every request. *)
Definition extension : Nip07 :=
  mkNip07 (Ok P)
    (fun u => Ok (mkEvent "ext-id" (u_pubkey u) (u_created_at u) (u_kind u)
                    (u_tags u) (u_content u) "ext-sig"))
    (Some (mkNip04 (fun _ _ => Ok "ext-ciphertext?iv=ext-iv")
                   (fun _ _ => Ok "ext-plaintext"))).

(** An extension whose user declines every request. *)
Definition rejecting : Nip07 :=
  mkNip07 (Throw (mkError "Error" "User rejected"))
    (fun _ => Throw (mkError "Error" "User rejected"))
    (Some (mkNip04 (fun _ _ => Throw (mkError "Error" "User rejected"))
                   (fun _ _ => Throw (mkError "Error" "User rejected")))).

Definition relayEmpty : nat -> list string -> Filter -> JsResult (option Event) :=
  fun _ _ _ => Ok None.

(** Relays that hold the profile of [P] only. *)
Definition relayWithP : nat -> list string -> Filter -> JsResult (option Event) :=
  fun _ _ f =>
    if existsb (String.eqb P) (authors f) then Ok (Some profileOfP)
    else Ok None.

Definition lnurlNone : Event -> JsResult (option string) := fun _ => Ok None.

Definition lnurlOfP : Event -> JsResult (option string) :=
  fun ev => if String.eqb (ev_pubkey ev) P then Ok (Some endpoint) else Ok None.

Definition invoice : JSON := JObj [("pr", JStr "lnbc10u1scenario")]%list.

Definition httpOk : nat -> string -> JsResult Response :=
  fun _ _ => Ok (mkResponse 200 (Ok invoice)).

Definition http500 : nat -> string -> JsResult Response :=
  fun _ _ => Ok (mkResponse 500 (Ok JNull)).

(** A fresh page: nothing stored, nobody signed in. *)
Definition fresh : World := mkWorld None None [] [] [] [] 0 0 0 [] 0.

(** A browser without extension, and relays that know nobody. *)
Definition noExtension : Env := env None relayEmpty lnurlNone httpOk.

Definition withExtension : Env :=
  env (Some extension) relayEmpty lnurlNone httpOk.

Definition withRejecting : Env :=
  env (Some rejecting) relayEmpty lnurlNone httpOk.

(** The end-to-end scenario: the relays hold the profile of [P], whose
    LNURL service answers with [endpoint]. *)
Definition zapOk : Env := env None relayWithP lnurlOfP httpOk.

Definition zap500 : Env := env None relayWithP lnurlOfP http500.

Definition zapNoEndpoint : Env := env None relayWithP lnurlNone httpOk.

End Scenario.

(* ================================================================== *)
(** ** Calls, frames and invariants *)

(** A computation leaves the observation [f] of the world as it was,
    whether it returns or throws. *)
Definition keeps {X A : Type} (f : World -> X) (m : Js A) : Prop :=
  forall w, f (snd (m w)) = f w.

(** The key derivation of the library accepts no empty key and returns no
    empty public key (it takes 32 bytes and returns 64 hex digits). *)
Definition derivation_sane (E : Env) : Prop :=
  forall bs pk, getPublicKey E bs = Ok pk -> bs <> []%list /\ truthy pk = true.

(** The key derivation of the library takes keys of 32 bytes only. *)
Definition derivation_takes_32_bytes (E : Env) : Prop :=
  forall bs pk, getPublicKey E bs = Ok pk -> List.length bs = 32%nat.

(** A whole amount of sats whose thousandfold is a safe integer: on these
    [Math.floor(amount * 1000).toString()] is the decimal text of
    [amount * 1000]. *)
Definition safe_amount (amount : Z) : Prop :=
  (Z.abs (amount * 1000) <= 2 ^ 53)%Z.

(** The relays only answer with events of a requested author. *)
Definition relay_faithful (E : Env) : Prop :=
  forall n relays f ev,
    relayPool_get E n relays f = Ok (Some ev) -> In (ev_pubkey ev) (authors f).

(** The slot mirrors the session: it holds the secret of a local-key
    session, whose public key is the one derived from it, and is empty in
    every other state. *)
Definition coherent (E : Env) (w : World) : Prop :=
  match session w with
  | Active (LocalKey sk) pk =>
      sessionStorage w = Some sk /\
      getPublicKey E (Buffer_from_hex sk) = Ok pk
  | _ => sessionStorage w = None
  end.

(** What a restart makes of a session. *)
Definition restored (s : Session) : Session :=
  match s with
  | Active (LocalKey sk) pk => Active (LocalKey sk) pk
  | _ => LoggedOut
  end.

(** One use of the module by the application: a call of an exported
    function, or a reload of the page. *)
Inductive Call : Type :=
| Call_signOut
| Call_loginWithRandomKeys
| Call_loginWithPrivkey (privkey : string)
| Call_tryLogin
| Call_encryptDM (otherPubkey text : string)
| Call_decryptDM (otherPubkey text : string)
| Call_makeEvent (kind : Z) (content : string) (tags : list (list string))
| Call_getProfileMetadata (publicKey : string)
| Call_createInvoice (destination message : string) (amount : Z)
    (eventId : string)
| Call_checkPayment (verify : string)
| Call_restart.

(** The world after a call, whatever it returned or threw. *)
Definition after (E : Env) (c : Call) (w : World) : World :=
  match c with
  | Call_signOut => snd (signOut w)
  | Call_loginWithRandomKeys => snd (loginWithRandomKeys E w)
  | Call_loginWithPrivkey privkey => snd (loginWithPrivkey E privkey w)
  | Call_tryLogin => snd (tryLogin E w)
  | Call_encryptDM otherPubkey text => snd (encryptDM E otherPubkey text w)
  | Call_decryptDM otherPubkey text => snd (decryptDM E otherPubkey text w)
  | Call_makeEvent kind content tags => snd (makeEvent E kind content tags w)
  | Call_getProfileMetadata publicKey => snd (getProfileMetadata E publicKey w)
  | Call_createInvoice destination message amount eventId =>
      snd (createInvoice E destination message amount eventId w)
  | Call_checkPayment verify => snd (checkPayment E verify w)
  | Call_restart => snd (restart E w)
  end.

Definition after_all (E : Env) (calls : list Call) (w : World) : World :=
  fold_left (fun w0 c => after E c w0) calls w.

(* ================================================================== *)
(** ** Basic facts *)

Create HintDb js discriminated.

#[local] Hint Unfold bind ret throw lift gets modify try_catch : js.
#[local] Hint Unfold store_set getPubkey getPrivkey : js.

Ltac js_run := autounfold with js in *; cbn [fst snd] in *.

Lemma session_LoggedOut (w : World) :
  session w = LoggedOut <-> store w = None.
Proof.
  unfold session. split.
  - destruct (store w) as [k|]; [|reflexivity].
    destruct (privkey k) as [sk|]; [destruct (truthy sk)|]; discriminate.
  - intros ->. reflexivity.
Qed.

Lemma hex32_truthy (s : string) : hex32 s = true -> truthy s = true.
Proof.
  unfold hex32. intros H. apply andb_true_iff in H as [H _].
  destruct s; [discriminate H | reflexivity].
Qed.

(** The subscriber writes the slot only for a truthy [privkey]; this is the
    only place the module calls [setItem]. *)
Lemma persist_slot (v : option Keys) (w : World) :
  sessionStorage (persist v w) =
  match v with
  | Some (mkKeys (Some sk) _) => if truthy sk then Some sk else sessionStorage w
  | _ => sessionStorage w
  end.
Proof.
  destruct v as [[[sk|] pk]|]; cbn; try reflexivity.
  destruct (truthy sk); reflexivity.
Qed.

Lemma Buffer_hex_roundtrip (bs : list byte) :
  Buffer_from_hex (Buffer_toString_hex bs) = bs.
Proof.
  induction bs as [|b bs IH]; [reflexivity|].
  cbn [Buffer_toString_hex Buffer_from_hex]. rewrite IH.
  destruct b; reflexivity.
Qed.

Lemma loginWithPrivkey_eq (E : Env) (hex : string) (w : World) :
  loginWithPrivkey E hex w =
  match getPublicKey E (Buffer_from_hex hex) with
  | Ok pk =>
      (Ok tt, persist (Some (mkKeys (Some hex) pk))
                (with_store (Some (mkKeys (Some hex) pk)) w))
  | Throw e => (Throw e, w)
  end.
Proof.
  unfold loginWithPrivkey. js_run.
  destruct (getPublicKey E (Buffer_from_hex hex)); reflexivity.
Qed.

(** Decoding reads whole pairs only: one more code unit after an even
    number of them is dropped, whatever the pairs are. *)
Lemma Buffer_from_hex_trailing (n : nat) :
  forall (s : string) (c : ascii),
    String.length s = (2 * n)%nat ->
    Buffer_from_hex (s ++ String c "") = Buffer_from_hex s.
Proof.
  induction n as [|n IH]; intros s c Hlen.
  - destruct s; [reflexivity | discriminate Hlen].
  - destruct s as [|a [|b rest]]; try discriminate Hlen.
    + cbn in Hlen. lia.
    + cbn [append Buffer_from_hex].
      destruct (parseInt16 (String a (String b ""))); [|reflexivity].
      f_equal. apply IH. cbn in Hlen. lia.
Qed.

(** A pair of hex digits is read as the byte it spells. *)
Lemma parseInt16_hex_pair (a b : ascii) (h l : N) :
  hexCharValue a = Some h -> hexCharValue b = Some l ->
  parseInt16 (String a (String b "")) = Some (Z.of_N (16 * h + l)).
Proof.
  destruct a as [[] [] [] [] [] [] [] []]; try discriminate;
    intros Ha; injection Ha as <-;
    destruct b as [[] [] [] [] [] [] [] []]; try discriminate;
    intros Hb; injection Hb as <-; reflexivity.
Qed.

(** A text of [2 * n] hex digits decodes to [n] bytes. *)
Lemma Buffer_from_hex_allHex_length (n : nat) :
  forall s : string,
    String.length s = (2 * n)%nat -> allHex s = true ->
    List.length (Buffer_from_hex s) = n.
Proof.
  induction n as [|n IH]; intros s Hlen Hhex.
  - destruct s; [reflexivity | discriminate Hlen].
  - destruct s as [|a [|b rest]]; try discriminate Hlen.
    + cbn in Hlen. lia.
    + cbn in Hhex. cbn [Buffer_from_hex].
      destruct (hexCharValue a) as [h|] eqn:Ha; [|discriminate Hhex].
      destruct (hexCharValue b) as [l|] eqn:Hb; [|discriminate Hhex].
      rewrite (parseInt16_hex_pair a b h l Ha Hb). cbn [List.length].
      f_equal. apply IH; [cbn in Hlen; lia | exact Hhex].
Qed.

(** No more than one byte is decoded for two code units. *)
Lemma Buffer_from_hex_length (n : nat) :
  forall s : string,
    (String.length s < n)%nat ->
    (2 * List.length (Buffer_from_hex s) <= String.length s)%nat.
Proof.
  induction n as [|n IH]; intros s Hlen; [lia|].
  destruct s as [|a [|b rest]]; cbn [Buffer_from_hex]; cbn; try lia.
  destruct (parseInt16 (String a (String b ""))); cbn; [|lia].
  cbn in Hlen. specialize (IH rest ltac:(lia)). lia.
Qed.

(* ================================================================== *)
(** ** Persistence of the session *)

Lemma nostrAuth_init_restores (E : Env) (hex pk : string) (w : World) :
  sessionStorage w = Some hex ->
  truthy hex = true ->
  getPublicKey E (Buffer_from_hex hex) = Ok pk ->
  nostrAuth_init E w =
  (Ok tt, with_sessionStorage (Some hex)
            (with_store (Some (mkKeys (Some hex) pk)) w)).
Proof.
  intros Hslot Htruthy Hpk. unfold nostrAuth_init. js_run.
  rewrite Hslot, Htruthy, Hpk. cbn. rewrite Htruthy. reflexivity.
Qed.

Lemma nostrAuth_init_empty (E : Env) (w : World) :
  sessionStorage w = None ->
  nostrAuth_init E w = (Ok tt, with_store None w).
Proof.
  intros Hslot. unfold nostrAuth_init. js_run. rewrite Hslot. reflexivity.
Qed.

(** C5. For every valid hex secret key, [loginWithPrivkey] followed by a
    process restart (the slot is read when the module is evaluated, nobody
    logs in again) gives an active local-key session with the public key the
    session had before the restart.  The restore derives the public key
    again from the persisted secret, leaves the slot and the rest of the
    outside world as they were, and restoring twice is restoring once. *)
Theorem login_survives_restart (E : Env) (hex pk : string) (w : World) :
  valid_secret_hex E hex pk ->
  exists w1 w2,
    loginWithPrivkey E hex w = (Ok tt, w1) /\
    session w1 = Active (LocalKey hex) pk /\
    sessionStorage w1 = Some hex /\
    restart E w1 = (Ok tt, w2) /\
    session w2 = Active (LocalKey hex) pk /\
    same_outside w1 w2 /\
    restart E w2 = (Ok tt, w2).
Proof.
  intros [Hhex Hpk]. pose proof (hex32_truthy _ Hhex) as Htruthy.
  set (k := mkKeys (Some hex) pk).
  exists (persist (Some k) (with_store (Some k) w)).
  exists (with_sessionStorage (Some hex)
            (with_store (Some k) (with_profilesMetadata [] w))).
  assert (Hrestart : forall w0, sessionStorage w0 = Some hex ->
            restart E w0 =
            (Ok tt, with_sessionStorage (Some hex)
                      (with_store (Some k)
                         (with_profilesMetadata [] (with_store None w0))))).
  { intros w0 Hslot. unfold restart. js_run.
    rewrite (nostrAuth_init_restores E hex pk) by (cbn; assumption).
    reflexivity. }
  split; [rewrite loginWithPrivkey_eq, Hpk; reflexivity|].
  split; [unfold session, k; cbn; rewrite Htruthy; cbn; rewrite Htruthy;
          reflexivity|].
  split; [cbn; rewrite Htruthy; reflexivity|].
  split; [rewrite Hrestart by (cbn; rewrite Htruthy; reflexivity);
          cbn; rewrite Htruthy; reflexivity|].
  split; [unfold session, k; cbn; rewrite Htruthy; reflexivity|].
  split; [unfold same_outside; cbn; rewrite Htruthy; cbn; repeat split|].
  rewrite Hrestart by reflexivity. reflexivity.
Qed.

Lemma login_survives_restart_witness :
  valid_secret_hex Scenario.noExtension Scenario.secretOneHex
    Scenario.pubkeyOne /\
  exists w1 w2,
    loginWithPrivkey Scenario.noExtension Scenario.secretOneHex Scenario.fresh = (Ok tt, w1) /\
    session w1 = Active (LocalKey Scenario.secretOneHex) Scenario.pubkeyOne /\
    sessionStorage w1 = Some Scenario.secretOneHex /\
    restart Scenario.noExtension w1 = (Ok tt, w2) /\
    session w2 = Active (LocalKey Scenario.secretOneHex) Scenario.pubkeyOne /\
    same_outside w1 w2 /\
    restart Scenario.noExtension w2 = (Ok tt, w2).
Proof.
  assert (H : valid_secret_hex Scenario.noExtension Scenario.secretOneHex
                Scenario.pubkeyOne)
    by (split; reflexivity).
  split; [exact H|].
  exact (login_survives_restart Scenario.noExtension Scenario.secretOneHex
           Scenario.pubkeyOne Scenario.fresh H).
Defined.

(** C6. For every valid hex secret key, [loginWithPrivkey], then [signOut],
    then a process restart ends logged out: [signOut] empties the store and
    removes the slot, and the restart reads the empty slot. *)
Theorem signOut_survives_restart (E : Env) (hex pk : string) (w : World) :
  valid_secret_hex E hex pk ->
  exists w1 w2 w3,
    loginWithPrivkey E hex w = (Ok tt, w1) /\
    sessionStorage w1 = Some hex /\
    signOut w1 = (Ok tt, w2) /\
    session w2 = LoggedOut /\
    sessionStorage w2 = None /\
    restart E w2 = (Ok tt, w3) /\
    session w3 = LoggedOut /\
    sessionStorage w3 = None.
Proof.
  intros [Hhex Hpk]. pose proof (hex32_truthy _ Hhex) as Htruthy.
  set (k := mkKeys (Some hex) pk).
  set (w1 := persist (Some k) (with_store (Some k) w)).
  set (w2 := with_sessionStorage None (with_store None w1)).
  exists w1, w2, (with_store None (with_profilesMetadata [] (with_store None w2))).
  split; [rewrite loginWithPrivkey_eq, Hpk; reflexivity|].
  split; [unfold w1; rewrite persist_slot; cbn; rewrite Htruthy; reflexivity|].
  split; [reflexivity|].
  split; [reflexivity|].
  split; [reflexivity|].
  split; [|split; reflexivity].
  unfold restart. js_run.
  rewrite nostrAuth_init_empty by reflexivity. reflexivity.
Qed.

Lemma signOut_survives_restart_witness :
  valid_secret_hex Scenario.withExtension Scenario.secretOneHex
    Scenario.pubkeyOne /\
  exists w1 w2 w3,
    loginWithPrivkey Scenario.withExtension Scenario.secretOneHex
      Scenario.fresh = (Ok tt, w1) /\
    sessionStorage w1 = Some Scenario.secretOneHex /\
    signOut w1 = (Ok tt, w2) /\
    session w2 = LoggedOut /\
    sessionStorage w2 = None /\
    restart Scenario.withExtension w2 = (Ok tt, w3) /\
    session w3 = LoggedOut /\
    sessionStorage w3 = None.
Proof.
  assert (H : valid_secret_hex Scenario.withExtension Scenario.secretOneHex
                Scenario.pubkeyOne)
    by (split; reflexivity).
  split; [exact H|].
  exact (signOut_survives_restart Scenario.withExtension Scenario.secretOneHex
           Scenario.pubkeyOne Scenario.fresh H).
Defined.

(* ================================================================== *)
(** ** Logging in *)

Lemma loginWithRandomKeys_fallback (E : Env) (w : World) :
  keygen_sound E ->
  exists w', loginWithRandomKeys E w = (Ok true, w') /\ fallback_login E w w'.
Proof.
  intros Hgen. destruct (Hgen (keygen_calls w)) as [pk Hpk].
  unfold loginWithRandomKeys. js_run. rewrite Hpk.
  eexists. split; [reflexivity|].
  unfold fallback_login. exists pk. eexists.
  split; [exact Hpk|].
  cbn.
  destruct (truthy (Buffer_toString_hex
                      (generateSecretKey E (keygen_calls w))));
    cbn; repeat split; reflexivity.
Qed.

Lemma fallback_login_active (E : Env) (w w' : World) :
  fallback_login E w w' -> session w' <> LoggedOut.
Proof.
  intros (pk & text & _ & Hstore & _) Hout.
  apply session_LoggedOut in Hout. congruence.
Qed.

(** C4. [tryLogin] never leaves the session without an identity.  Whatever
    the discovery of the external signer does (no capability, a capability
    that throws, a user who declines), [tryLogin] returns [true] and the
    session is active afterwards: with only the discovered public key when
    the discovery succeeded, and otherwise with a freshly generated local
    key, after exactly one advisory message and one clipboard text.  (The
    key generator is the one of the library: its keys are valid.) *)
Theorem tryLogin_establishes_identity (E : Env) (w : World) :
  keygen_sound E ->
  exists w',
    tryLogin E w = (Ok true, w') /\
    session w' <> LoggedOut /\
    tryLogin_outcome E w w'.
Proof.
  intros Hgen. unfold tryLogin, tryLogin_outcome. js_run.
  destruct (truthy_opt (option_map pubkey (store w))) eqn:Hcur.
  - exists w. split; [reflexivity|]. split; [|reflexivity].
    intros Hout. apply session_LoggedOut in Hout. rewrite Hout in Hcur.
    discriminate Hcur.
  - destruct (loginWithRandomKeys_fallback E w Hgen) as (wf & Hrun & Hfb).
    destruct (window_nostr E) as [ext|].
    + destruct (ext_getPublicKey ext) as [pk|e].
      * eexists. split; [reflexivity|]. cbn.
        split; [|repeat split; reflexivity].
        intros Hout. discriminate Hout.
      * exists wf. split; [exact Hrun|].
        split; [exact (fallback_login_active E w wf Hfb) | exact Hfb].
    + exists wf. split; [exact Hrun|].
      split; [exact (fallback_login_active E w wf Hfb) | exact Hfb].
Qed.

Lemma scenario_keygen_sound (ext : option Nip07) :
  keygen_sound (Scenario.env ext Scenario.relayEmpty Scenario.lnurlNone
                  Scenario.httpOk).
Proof.
  intros n. exists Scenario.pubkeyOne. reflexivity.
Defined.

Lemma tryLogin_establishes_identity_witness :
  keygen_sound Scenario.withRejecting /\
  exists w',
    tryLogin Scenario.withRejecting Scenario.fresh = (Ok true, w') /\
    session w' <> LoggedOut /\
    tryLogin_outcome Scenario.withRejecting Scenario.fresh w'.
Proof.
  split; [exact (scenario_keygen_sound (Some Scenario.rejecting))|].
  exact (tryLogin_establishes_identity Scenario.withRejecting Scenario.fresh
           (scenario_keygen_sound (Some Scenario.rejecting))).
Defined.

(** C10. A [tryLogin] that succeeds through the external signer stores the
    public key only and does not touch the slot: whatever the slot held, it
    holds it afterwards, and so does everything else outside the store.  A
    restart after this login therefore restores what a restart before it
    would have restored; from an empty slot, nothing. *)
Theorem external_login_not_persisted (E : Env) (ext : Nip07) (pk : string)
    (w : World) :
  truthy_opt (option_map pubkey (store w)) = false ->
  window_nostr E = Some ext ->
  ext_getPublicKey ext = Ok pk ->
  exists w1,
    tryLogin E w = (Ok true, w1) /\
    session w1 = Active ExternalSigner pk /\
    same_outside w w1 /\
    restart E w1 = restart E w /\
    (sessionStorage w = None ->
     exists w2, restart E w1 = (Ok tt, w2) /\ session w2 = LoggedOut) /\
    (forall v w0,
       sessionStorage (snd (store_set v w0)) <> sessionStorage w0 ->
       exists sk pk', v = Some (mkKeys (Some sk) pk') /\ truthy sk = true).
Proof.
  intros Hcur Hext Hpk.
  exists (with_store (Some (mkKeys None pk)) w).
  split.
  { unfold tryLogin. js_run. rewrite Hcur, Hext. js_run. rewrite Hpk.
    reflexivity. }
  split; [reflexivity|].
  split; [unfold same_outside; cbn; repeat split|].
  split; [reflexivity|].
  split.
  - intros Hslot. exists (with_store None (with_profilesMetadata [] w)).
    split; [|reflexivity].
    unfold restart. js_run.
    rewrite nostrAuth_init_empty by (cbn; exact Hslot). reflexivity.
  - intros v w0. js_run. rewrite persist_slot.
    destruct v as [[[sk|] pk']|]; cbn; try (intros H; now elim H).
    destruct (truthy sk) eqn:Hsk; [|intros H; now elim H].
    intros _. exists sk, pk'. split; [reflexivity | exact Hsk].
Qed.

Lemma external_login_not_persisted_witness :
  truthy_opt (option_map pubkey (store Scenario.fresh)) = false /\
  window_nostr Scenario.withExtension = Some Scenario.extension /\
  ext_getPublicKey Scenario.extension = Ok Scenario.P /\
  exists w1,
    tryLogin Scenario.withExtension Scenario.fresh = (Ok true, w1) /\
    session w1 = Active ExternalSigner Scenario.P /\
    same_outside Scenario.fresh w1 /\
    restart Scenario.withExtension w1 =
      restart Scenario.withExtension Scenario.fresh /\
    (sessionStorage Scenario.fresh = None ->
     exists w2, restart Scenario.withExtension w1 = (Ok tt, w2) /\
                session w2 = LoggedOut) /\
    (forall v w0,
       sessionStorage (snd (store_set v w0)) <> sessionStorage w0 ->
       exists sk pk', v = Some (mkKeys (Some sk) pk') /\ truthy sk = true).
Proof.
  split; [reflexivity|]. split; [reflexivity|]. split; [reflexivity|].
  exact (external_login_not_persisted Scenario.withExtension
           Scenario.extension Scenario.P Scenario.fresh
           eq_refl eq_refl eq_refl).
Defined.

(* ================================================================== *)
(** ** Signing and encrypting without a session *)

(** C1, as the specification states it, fails: with nobody signed in and an
    extension in the page, [encryptDM] does not fail at all; it hands the
    text to the extension and returns its ciphertext. *)
Lemma encryptDM_loggedOut_succeeds :
  session Scenario.fresh = LoggedOut /\
  encryptDM Scenario.withExtension "peer" "hello" Scenario.fresh =
  (Ok "ext-ciphertext?iv=ext-iv", Scenario.fresh).
Proof.
  split; reflexivity.
Qed.

(** C1, amended.  With nobody signed in, [makeEvent] always fails with the
    engine's TypeError (the store is read as if it held keys) before any
    clock read or signing; [encryptDM] and [decryptDM] go to the extension:
    they return whatever its [nip04] member returns, and fail with a
    TypeError when the extension or that member is missing.  None of them
    changes the world. *)
Theorem loggedOut_operations (E : Env) (w : World) (kind : Z)
    (content : string) (tags : list (list string)) (other text : string) :
  session w = LoggedOut ->
  (exists msg, makeEvent E kind content tags w = (Throw (TypeError msg), w)) /\
  match window_nostr E with
  | Some (mkNip07 _ _ (Some cap)) =>
      encryptDM E other text w = (ext_encrypt cap other text, w) /\
      decryptDM E other text w = (ext_decrypt cap other text, w)
  | _ =>
      exists msg,
        encryptDM E other text w = (Throw (TypeError msg), w) /\
        decryptDM E other text w = (Throw (TypeError msg), w)
  end.
Proof.
  intros Hout. apply session_LoggedOut in Hout.
  split.
  - unfold makeEvent. js_run. rewrite Hout. eexists. reflexivity.
  - unfold encryptDM, decryptDM, window_nostr_nip04. js_run. rewrite Hout.
    destruct (window_nostr E) as [[gp sign [cap|]]|]; cbn.
    + split.
      * destruct (ext_encrypt cap other text); reflexivity.
      * destruct (ext_decrypt cap other text); reflexivity.
    + eexists. split; reflexivity.
    + eexists. split; reflexivity.
Qed.

Lemma loggedOut_operations_witness :
  session Scenario.fresh = LoggedOut /\
  (exists msg,
     makeEvent Scenario.noExtension 1 "hello" [] Scenario.fresh =
     (Throw (TypeError msg), Scenario.fresh)) /\
  exists msg,
    encryptDM Scenario.noExtension "peer" "hello" Scenario.fresh =
      (Throw (TypeError msg), Scenario.fresh) /\
    decryptDM Scenario.noExtension "peer" "hello" Scenario.fresh =
      (Throw (TypeError msg), Scenario.fresh).
Proof.
  split; [reflexivity|].
  exact (loggedOut_operations Scenario.noExtension Scenario.fresh 1 "hello"
           [] "peer" "hello" eq_refl).
Defined.

(* ================================================================== *)
(** ** Logging in with a given key *)

(** C3, as the specification states it, fails: a valid key followed by one
    more character is not the hex encoding of 32 bytes, and
    [loginWithPrivkey] accepts it, storing and persisting the text as it
    came. *)
Lemma loginWithPrivkey_accepts_trailing :
  hex32 (Scenario.secretOneHex ++ "0") = false /\
  exists w1,
    loginWithPrivkey Scenario.noExtension (Scenario.secretOneHex ++ "0")
      Scenario.fresh = (Ok tt, w1) /\
    session w1 =
      Active (LocalKey (Scenario.secretOneHex ++ "0")) Scenario.pubkeyOne /\
    sessionStorage w1 = Some (Scenario.secretOneHex ++ "0").
Proof.
  split; [reflexivity|]. eexists. split; [reflexivity|]. split; reflexivity.
Qed.

(** The decoder of the browser on two malformed texts: 62 zeros followed by
    a space and a one are read as the key 1, and logging in with them
    succeeds; a valid key followed by a one and a letter decodes to 33
    bytes, and logging in with it fails. *)
Lemma loginWithPrivkey_malformed_examples :
  Buffer_from_hex
    "00000000000000000000000000000000000000000000000000000000000000 1" =
    Scenario.secretOne /\
  fst (loginWithPrivkey Scenario.noExtension
         "00000000000000000000000000000000000000000000000000000000000000 1"
         Scenario.fresh) = Ok tt /\
  List.length (Buffer_from_hex (Scenario.secretOneHex ++ "1g")) = 33%nat /\
  loginWithPrivkey Scenario.noExtension (Scenario.secretOneHex ++ "1g")
    Scenario.fresh =
    (Throw (mkError "Error" "invalid private key"), Scenario.fresh).
Proof.
  repeat split; reflexivity.
Qed.

(** C3, amended.  [loginWithPrivkey] fails exactly when the key derivation
    of the library rejects the bytes [Buffer.from(_, 'hex')] decodes from
    the text, with the error of the library, and then changes nothing;
    otherwise it signs in with the text as given.  The decoding reads one
    byte per pair of code units with [parseInt] and drops a trailing single
    one.  So a text of 64 hex digits decodes to its 32 bytes; one more
    code unit after an even number of them changes nothing, and a valid
    key followed by one more character logs in as the key does; and, the
    derivation taking 32 bytes only, every text shorter than 64 code units
    is rejected. *)
Theorem loginWithPrivkey_outcome (E : Env) (hex : string) (w : World) :
  match getPublicKey E (Buffer_from_hex hex) with
  | Throw e => loginWithPrivkey E hex w = (Throw e, w)
  | Ok pk =>
      exists w',
        loginWithPrivkey E hex w = (Ok tt, w') /\
        store w' = Some (mkKeys (Some hex) pk) /\
        sessionStorage w' = (if truthy hex then Some hex else sessionStorage w)
  end /\
  (forall c : ascii,
     hex32 hex = true ->
     fst (loginWithPrivkey E (hex ++ String c "") w) =
     fst (loginWithPrivkey E hex w)) /\
  (forall c : ascii,
     Nat.even (String.length hex) = true ->
     Buffer_from_hex (hex ++ String c "") = Buffer_from_hex hex) /\
  (hex32 hex = true -> List.length (Buffer_from_hex hex) = 32%nat) /\
  (derivation_takes_32_bytes E ->
   (String.length hex < 64)%nat ->
   exists e, loginWithPrivkey E hex w = (Throw e, w)).
Proof.
  assert (Htrail : forall c : ascii,
            Nat.even (String.length hex) = true ->
            Buffer_from_hex (hex ++ String c "") = Buffer_from_hex hex).
  { intros c Heven. apply Nat.even_spec in Heven as [n Hn].
    exact (Buffer_from_hex_trailing n hex c Hn). }
  split; [|split; [|split; [exact Htrail|split]]].
  - rewrite loginWithPrivkey_eq.
    destruct (getPublicKey E (Buffer_from_hex hex)) as [pk|e];
      [|reflexivity].
    eexists. split; [reflexivity|]. split; [|rewrite persist_slot]; cbn.
    + destruct (truthy hex); reflexivity.
    + reflexivity.
  - intros c Hhex. unfold hex32 in Hhex.
    apply andb_true_iff in Hhex as [Hlen _].
    apply Nat.eqb_eq in Hlen.
    rewrite !loginWithPrivkey_eq.
    rewrite (Htrail c) by (rewrite Hlen; reflexivity).
    destruct (getPublicKey E (Buffer_from_hex hex)); reflexivity.
  - intros Hhex. unfold hex32 in Hhex.
    apply andb_true_iff in Hhex as [Hlen Hall].
    apply Nat.eqb_eq in Hlen.
    exact (Buffer_from_hex_allHex_length 32 hex Hlen Hall).
  - intros Hsize Hshort. rewrite loginWithPrivkey_eq.
    destruct (getPublicKey E (Buffer_from_hex hex)) as [pk|e] eqn:Hpk;
      [|exists e; reflexivity].
    apply Hsize in Hpk.
    pose proof (Buffer_from_hex_length (S (String.length hex)) hex
                  ltac:(lia)).
    lia.
Qed.

Lemma scenario_takes_32_bytes (ext : option Nip07)
    (relay : nat -> list string -> Filter -> JsResult (option Event))
    (lnurl : Event -> JsResult (option string))
    (http : nat -> string -> JsResult Response) :
  derivation_takes_32_bytes (Scenario.env ext relay lnurl http).
Proof.
  intros bs pk. cbn. unfold Scenario.getPublicKey.
  destruct (String.eqb _ _) eqn:Hhex; [|discriminate].
  intros _. apply String.eqb_eq in Hhex.
  rewrite <- (Buffer_hex_roundtrip bs), Hhex. reflexivity.
Defined.

Lemma loginWithPrivkey_outcome_witness :
  hex32 Scenario.secretOneHex = true /\
  fst (loginWithPrivkey Scenario.noExtension
         (Scenario.secretOneHex ++ "0") Scenario.fresh) =
  fst (loginWithPrivkey Scenario.noExtension Scenario.secretOneHex
         Scenario.fresh) /\
  List.length (Buffer_from_hex Scenario.secretOneHex) = 32%nat /\
  exists e,
    loginWithPrivkey Scenario.noExtension "0001" Scenario.fresh =
    (Throw e, Scenario.fresh).
Proof.
  split; [reflexivity|].
  split;
    [exact (proj1 (proj2 (loginWithPrivkey_outcome Scenario.noExtension
                            Scenario.secretOneHex Scenario.fresh))
              "0"%char eq_refl)|].
  split;
    [exact (proj1 (proj2 (proj2 (proj2
              (loginWithPrivkey_outcome Scenario.noExtension
                 Scenario.secretOneHex Scenario.fresh)))) eq_refl)|].
  exact (proj2 (proj2 (proj2 (proj2
           (loginWithPrivkey_outcome Scenario.noExtension "0001"
              Scenario.fresh))))
           (scenario_takes_32_bytes _ _ _ _)
           ltac:(cbn; lia)).
Defined.

(* ================================================================== *)
(** ** Profile metadata *)

(** The four ways one resolution can go. *)
Lemma getProfileMetadata_eq (E : Env) (publicKey : string) (w : World) :
  getProfileMetadata E publicKey w =
  match cached publicKey w with
  | Some ev => (Ok (Some ev), w)
  | None =>
      let w1 := with_relay_queries (S (relay_queries w)) w in
      match relayPool_get E (relay_queries w) relayList
              (mkFilter [Metadata] [publicKey] 1) with
      | Ok (Some ev) =>
          (Ok (Some ev),
           with_profilesMetadata (profilesMetadata w ++ [ev])%list w1)
      | Ok None => (Ok None, w1)
      | Throw e =>
          (Ok None,
           with_console_errors
             (console_errors w ++ [("Unable get profile metadata", e)])%list
             w1)
      end
  end.
Proof.
  unfold getProfileMetadata, cached, relayPool_query, console_error. js_run.
  destruct (find _ (profilesMetadata w)) as [ev|]; [reflexivity|].
  destruct (relayPool_get E (relay_queries w) relayList _) as [[ev|]|e];
    reflexivity.
Qed.

Lemma find_snoc_miss {A} (f : A -> bool) (l : list A) (x : A) :
  find f l = None -> f x = true -> find f (l ++ [x])%list = Some x.
Proof.
  induction l as [|a l IH]; cbn; intros Hmiss Hx.
  - rewrite Hx. reflexivity.
  - destruct (f a); [discriminate Hmiss | exact (IH Hmiss Hx)].
Qed.

(** Resolution touches the cache, the relay counter and the console only. *)
Lemma getProfileMetadata_frame (E : Env) (publicKey : string) (w : World) :
  let w' := snd (getProfileMetadata E publicKey w) in
  store w' = store w /\ sessionStorage w' = sessionStorage w /\
  fetch_calls w' = fetch_calls w /\ json_calls w' = json_calls w.
Proof.
  rewrite getProfileMetadata_eq.
  destruct (cached publicKey w); [cbn; repeat split|].
  cbn. destruct (relayPool_get E _ _ _) as [[ev|]|e]; cbn; repeat split.
Qed.

(** C7, as the specification states it, fails: when no relay has the
    metadata, nothing is cached, and the second of two resolutions in a row
    asks the relays again. *)
Lemma getProfileMetadata_absent_queries_twice :
  fst (getProfileMetadata Scenario.noExtension Scenario.P Scenario.fresh) =
    Ok None /\
  fst (getProfileMetadata Scenario.noExtension Scenario.P
         (snd (getProfileMetadata Scenario.noExtension Scenario.P
                 Scenario.fresh))) = Ok None /\
  relay_queries Scenario.fresh = 0%nat /\
  relay_queries
    (snd (getProfileMetadata Scenario.noExtension Scenario.P
            (snd (getProfileMetadata Scenario.noExtension Scenario.P
                    Scenario.fresh)))) = 2%nat.
Proof.
  repeat split; reflexivity.
Qed.

(** C7, amended.  Two resolutions in a row for the same key never throw and
    ask the relays at most once each.  When the first one yields a metadata
    event of that key (from the cache, or fetched and then cached), the
    second is a cache hit: it returns the same event, asks no relay and
    changes nothing, so at most one query was issued.  When the first lookup
    finds nothing or fails, it returns null, caches nothing and has asked
    the relays once, and the second resolution asks them again: two queries
    in total. *)
Theorem getProfileMetadata_twice (E : Env) (publicKey : string) (w : World) :
  exists r1 w1 r2 w2,
    getProfileMetadata E publicKey w = (Ok r1, w1) /\
    getProfileMetadata E publicKey w1 = (Ok r2, w2) /\
    (relay_queries w2 <= relay_queries w + 2)%nat /\
    (forall ev,
       r1 = Some ev -> ev_pubkey ev = publicKey ->
       r2 = Some ev /\ w2 = w1 /\
       (relay_queries w2 <= relay_queries w + 1)%nat) /\
    (r1 = None ->
     profilesMetadata w1 = profilesMetadata w /\
     relay_queries w1 = S (relay_queries w) /\
     relay_queries w2 = (relay_queries w + 2)%nat).
Proof.
  assert (Hstep : forall w0, exists r w',
             getProfileMetadata E publicKey w0 = (Ok r, w') /\
             (relay_queries w' <= relay_queries w0 + 1)%nat).
  { intros w0. rewrite getProfileMetadata_eq.
    destruct (cached publicKey w0); [do 2 eexists; split; [reflexivity|lia]|].
    cbv zeta. destruct (relayPool_get E _ _ _) as [[ev|]|e];
      do 2 eexists; (split; [reflexivity | cbn; lia]). }
  destruct (Hstep w) as (r1 & w1 & H1 & Hq1).
  destruct (Hstep w1) as (r2 & w2 & H2 & Hq2).
  exists r1, w1, r2, w2.
  split; [exact H1|]. split; [exact H2|]. split; [lia|].
  rewrite getProfileMetadata_eq in H1, H2.
  split.
  - intros ev -> Hauthor.
    assert (Hhit : cached publicKey w1 = Some ev).
    { destruct (cached publicKey w) as [hit|] eqn:Hc.
      - injection H1 as -> <-. exact Hc.
      - cbv zeta in H1.
        destruct (relayPool_get E _ _ _) as [[got|]|e]; try discriminate H1.
        injection H1 as -> <-. unfold cached in *. cbn.
        apply find_snoc_miss; [exact Hc|].
        rewrite Hauthor. apply String.eqb_refl. }
    rewrite Hhit in H2. injection H2 as <- <-.
    split; [reflexivity|]. split; [reflexivity | exact Hq1].
  - intros ->.
    destruct (cached publicKey w) as [hit|] eqn:Hc; [discriminate H1|].
    cbv zeta in H1.
    assert (Hw1 : profilesMetadata w1 = profilesMetadata w /\
                  relay_queries w1 = S (relay_queries w)).
    { destruct (relayPool_get E _ _ _) as [[got|]|e]; try discriminate H1;
        injection H1 as <-; split; reflexivity. }
    destruct Hw1 as [Hcache Hq].
    split; [exact Hcache|]. split; [exact Hq|].
    assert (Hc1 : cached publicKey w1 = None)
      by (unfold cached in *; rewrite Hcache; exact Hc).
    rewrite Hc1 in H2. cbv zeta in H2.
    destruct (relayPool_get E (relay_queries w1) _ _) as [[got|]|e];
      injection H2 as _ <-; cbn; lia.
Qed.

Lemma getProfileMetadata_twice_witness :
  exists w1,
    getProfileMetadata Scenario.zapOk Scenario.P Scenario.fresh =
      (Ok (Some Scenario.profileOfP), w1) /\
    getProfileMetadata Scenario.zapOk Scenario.P w1 =
      (Ok (Some Scenario.profileOfP), w1) /\
    relay_queries w1 = 1%nat.
Proof.
  destruct (getProfileMetadata_twice Scenario.zapOk Scenario.P Scenario.fresh)
    as (r1 & w1 & r2 & w2 & H1 & H2 & _ & Hhit & _).
  vm_compute in H1. injection H1 as <- <-.
  destruct (Hhit Scenario.profileOfP eq_refl eq_refl) as (-> & -> & _).
  eexists. split; [reflexivity|]. split; [exact H2 | reflexivity].
Defined.

(* ================================================================== *)
(** ** Zap invoices *)

(** C8. When the profile of the recipient is resolved and yields no payment
    callback endpoint (the LNURL lookup answers null, or an empty string),
    [createInvoice] fails with the error named ZapEndpoint (the
    specification's NoPaymentEndpoint): it is logged once and thrown again,
    and the flow has issued no HTTP request and parsed no response. *)
Theorem createInvoice_no_endpoint (E : Env) (destination message : string)
    (amount : Z) (eventId publicKey : string) (metadata : Event)
    (endpoint : option string) (w w1 : World) :
  decode E destination = Ok publicKey ->
  getProfileMetadata E publicKey w = (Ok (Some metadata), w1) ->
  getZapEndpoint E metadata = Ok endpoint ->
  truthy_opt endpoint = false ->
  exists w',
    createInvoice E destination message amount eventId w =
      (Throw ZapEndpointError, w') /\
    fetch_calls w' = fetch_calls w /\
    json_calls w' = json_calls w /\
    console_errors w' =
      (console_errors w1 ++ [("Unable to create invoice", ZapEndpointError)])%list.
Proof.
  intros Hdecode Hprofile Hlnurl Hfalsy.
  destruct (getProfileMetadata_frame E publicKey w) as (_ & _ & Hfetch & Hjson).
  rewrite Hprofile in Hfetch, Hjson. cbn in Hfetch, Hjson.
  unfold createInvoice, console_error. js_run.
  rewrite Hdecode, Hprofile, Hlnurl.
  destruct endpoint as [ep|]; cbn in Hfalsy |- *.
  - rewrite Hfalsy. cbn. eexists. split; [reflexivity|].
    cbn. repeat split; assumption.
  - eexists. split; [reflexivity|]. cbn. repeat split; assumption.
Qed.

Lemma createInvoice_no_endpoint_witness :
  exists w',
    createInvoice Scenario.zapNoEndpoint Scenario.recipient "gm" 1000 "abc123"
      Scenario.fresh = (Throw ZapEndpointError, w') /\
    fetch_calls w' = fetch_calls Scenario.fresh /\
    json_calls w' = json_calls Scenario.fresh /\
    console_errors w' =
      [("Unable to create invoice", ZapEndpointError)]%list.
Proof.
  exact (createInvoice_no_endpoint Scenario.zapNoEndpoint Scenario.recipient
           "gm" 1000 "abc123" Scenario.P Scenario.profileOfP None
           Scenario.fresh
           (snd (getProfileMetadata Scenario.zapNoEndpoint Scenario.P
                   Scenario.fresh))
           eq_refl eq_refl eq_refl eq_refl).
Defined.

(** C9. When every earlier stage succeeds and the invoice endpoint answers
    with a status outside 200-299 (500, say), [createInvoice] fails with the
    error named InvoiceRequest (the specification's InvoiceRequestFailed):
    the body is never parsed, the error is logged once and then thrown again
    to the caller. *)
Theorem createInvoice_http_failure (E : Env) (destination message : string)
    (amount : Z) (eventId publicKey : string) (metadata : Event)
    (endpoint : string) (zapRequestEvent : EventTemplate) (callbackUrl : URL)
    (response : Response) (w w1 : World) :
  decode E destination = Ok publicKey ->
  getProfileMetadata E publicKey w = (Ok (Some metadata), w1) ->
  getZapEndpoint E metadata = Ok (Some endpoint) ->
  truthy endpoint = true ->
  makeZapRequest E (mkZapArgs publicKey eventId amount relayList message) =
    Ok zapRequestEvent ->
  URL_new E endpoint = Ok callbackUrl ->
  fetch E (List.length (fetch_calls w))
    (invoiceUrl callbackUrl message amount zapRequestEvent) = Ok response ->
  ok response = false ->
  exists w',
    createInvoice E destination message amount eventId w =
      (Throw InvoiceRequestError, w') /\
    json_calls w' = json_calls w /\
    fetch_calls w' =
      (fetch_calls w ++
       [invoiceUrl callbackUrl message amount zapRequestEvent])%list /\
    console_errors w' =
      (console_errors w1 ++
       [("Unable to create invoice", InvoiceRequestError)])%list.
Proof.
  intros Hdecode Hprofile Hlnurl Htruthy Hzap Hurl Hfetch Hstatus.
  destruct (getProfileMetadata_frame E publicKey w) as (_ & _ & Hf & Hj).
  rewrite Hprofile in Hf, Hj. cbn in Hf, Hj.
  unfold createInvoice, console_error, fetch_url, Response_json. js_run.
  rewrite Hdecode, Hprofile, Hlnurl, Htruthy. cbn.
  rewrite Hzap, Hurl, Hf, Hfetch, Hstatus. cbn.
  eexists. split; [reflexivity|]. cbn.
  repeat split; assumption.
Qed.

Lemma createInvoice_http_failure_witness :
  ok (mkResponse 500 (Ok JNull)) = false /\
  exists w',
    createInvoice Scenario.zap500 Scenario.recipient "gm" 1000 "abc123"
      Scenario.fresh = (Throw InvoiceRequestError, w') /\
    json_calls w' = 0%nat /\
    List.length (fetch_calls w') = 1%nat /\
    console_errors w' =
      [("Unable to create invoice", InvoiceRequestError)]%list.
Proof.
  split; [reflexivity|].
  destruct (createInvoice_http_failure Scenario.zap500 Scenario.recipient
              "gm" 1000 "abc123" Scenario.P Scenario.profileOfP
              Scenario.endpoint
              (mkTemplate 9734 1700000000 "gm"
                 [ ["p"; Scenario.P]; ["amount"; "1000"];
                   "relays" :: relayList; ["e"; "abc123"] ]%list)
              (mkURL "https:" "pay.example" "/cb" [("foo", "1")]%list)
              (mkResponse 500 (Ok JNull))
              Scenario.fresh
              (snd (getProfileMetadata Scenario.zap500 Scenario.P
                      Scenario.fresh))
              eq_refl eq_refl eq_refl eq_refl eq_refl eq_refl eq_refl eq_refl)
    as (w' & Hrun & Hjson & Hfetch & Hlog).
  exists w'. split; [exact Hrun|]. split; [exact Hjson|].
  split; [rewrite Hfetch; reflexivity | exact Hlog].
Defined.

(** *** The query of the invoice request, for every endpoint *)

Lemma obj_set_In_same (k v : string) (o : JsObject) :
  In (k, v) (obj_set k v o).
Proof.
  induction o as [|[k' v'] o IH]; cbn; [left; reflexivity|].
  destruct (String.eqb k' k) eqn:Hk.
  - apply String.eqb_eq in Hk. subst k'. left. reflexivity.
  - right. exact IH.
Qed.

Lemma obj_set_In_other (k v k' v' : string) (o : JsObject) :
  k' <> k -> In (k', v') o -> In (k', v') (obj_set k v o).
Proof.
  intros Hneq. induction o as [|[k0 v0] o IH]; cbn; [tauto|].
  intros [Hhead|Htail].
  - injection Hhead as -> ->.
    destruct (String.eqb k' k) eqn:Hk.
    + apply String.eqb_eq in Hk. contradiction.
    + left. reflexivity.
  - destruct (String.eqb k0 k); right; [exact Htail | exact (IH Htail)].
Qed.

Lemma insertIndexed_In (n : N) (kv : string * string)
    (l : list (N * (string * string))) (x : N * (string * string)) :
  In x (insertIndexed n kv l) <-> x = (n, kv) \/ In x l.
Proof.
  induction l as [|[m kv'] l IH]; cbn.
  - intuition congruence.
  - destruct (n <? m)%N; cbn; [intuition congruence|].
    rewrite IH. intuition congruence.
Qed.

(** Enumeration reorders the properties of an object and loses none. *)
Lemma Object_entries_In (kv : string * string) (o : JsObject) :
  In kv o -> In kv (Object_entries o).
Proof.
  intros Hin. unfold Object_entries. apply in_or_app.
  destruct (arrayIndex (fst kv)) as [n|] eqn:Hidx.
  - left. apply in_map_iff. exists (n, kv). split; [reflexivity|].
    induction o as [|kv0 o IH]; [contradiction|].
    cbn. destruct Hin as [->|Hin].
    + rewrite Hidx. apply insertIndexed_In. left. reflexivity.
    + destruct (arrayIndex (fst kv0));
        [apply insertIndexed_In; right|]; exact (IH Hin).
  - right. unfold namedProps. apply filter_In.
    split; [exact Hin | rewrite Hidx; reflexivity].
Qed.

(** Stage 5 for every endpoint: the query carries the comment, the amount
    in millisatoshi, the JSON text of the zap request, and every parameter
    of the endpoint that none of the three replaces. *)
Lemma invoiceParams_merge (callbackUrl : URL) (message : string) (amount : Z)
    (zapRequestEvent : EventTemplate) :
  let params := invoiceParams callbackUrl message amount zapRequestEvent in
  In ("comment", message) params /\
  In ("amount", Number_toString (amount * 1000)) params /\
  In ("nostr", JSON_stringify (JSON_of_EventTemplate zapRequestEvent))
     params /\
  forall k v,
    In (k, v) (Object_fromEntries (searchParams callbackUrl)) ->
    k <> "comment" -> k <> "amount" -> k <> "nostr" ->
    In (k, v) params.
Proof.
  cbv zeta. unfold invoiceParams.
  assert (Hmsg : (if truthy message then message else "") = message)
    by (destruct message; reflexivity).
  rewrite Hmsg.
  repeat split; try intros k v Hin Hc Ha Hn; apply Object_entries_In.
  - apply obj_set_In_other; [discriminate|].
    apply obj_set_In_other; [discriminate|]. apply obj_set_In_same.
  - apply obj_set_In_other; [discriminate|]. apply obj_set_In_same.
  - apply obj_set_In_same.
  - apply obj_set_In_other; [exact Hn|].
    apply obj_set_In_other; [exact Ha|].
    apply obj_set_In_other; [exact Hc|]. exact Hin.
Qed.

(** The flow up to its HTTP request, for every environment: the zap request
    is built from [amount] as the caller gave it, and the URL fetched is
    [invoiceUrl], whose amount parameter is [amount * 1000]. *)
Lemma createInvoice_success (E : Env) (destination message : string)
    (amount : Z) (eventId publicKey : string) (metadata : Event)
    (endpoint : string) (zapRequestEvent : EventTemplate) (callbackUrl : URL)
    (response : Response) (invoice : JSON) (w w1 : World) :
  decode E destination = Ok publicKey ->
  getProfileMetadata E publicKey w = (Ok (Some metadata), w1) ->
  getZapEndpoint E metadata = Ok (Some endpoint) ->
  truthy endpoint = true ->
  makeZapRequest E (mkZapArgs publicKey eventId amount relayList message) =
    Ok zapRequestEvent ->
  URL_new E endpoint = Ok callbackUrl ->
  fetch E (List.length (fetch_calls w))
    (invoiceUrl callbackUrl message amount zapRequestEvent) = Ok response ->
  ok response = true ->
  body_json response = Ok invoice ->
  exists w',
    createInvoice E destination message amount eventId w = (Ok invoice, w') /\
    json_calls w' = S (json_calls w) /\
    fetch_calls w' =
      (fetch_calls w ++
       [invoiceUrl callbackUrl message amount zapRequestEvent])%list /\
    console_errors w' = console_errors w1.
Proof.
  intros Hdecode Hprofile Hlnurl Htruthy Hzap Hurl Hfetch Hstatus Hbody.
  destruct (getProfileMetadata_frame E publicKey w) as (_ & _ & Hf & Hj).
  rewrite Hprofile in Hf, Hj. cbn in Hf, Hj.
  unfold createInvoice, console_error, fetch_url, Response_json. js_run.
  rewrite Hdecode, Hprofile, Hlnurl, Htruthy. cbn.
  rewrite Hzap, Hurl, Hf, Hfetch, Hstatus. cbn. rewrite Hbody.
  eexists. split; [reflexivity|]. cbn. rewrite Hj.
  repeat split; assumption.
Qed.

(** C2, on the code.  In the end-to-end scenario (endpoint
    https://pay.example/cb?foo=1, 1000 sat, comment gm, event abc123) the
    flow fetches one URL whose query is foo=1, comment=gm, amount=1000000
    and nostr=(the JSON text of the zap request), and the zap request has a
    tag referencing abc123.  But the zap request was built from the amount
    as given: its amount is 1000, not the 1000000 of the query. *)
Theorem zap_scenario_request :
  exists zapRequestEvent w',
    makeZapRequest Scenario.zapOk
      (mkZapArgs Scenario.P "abc123" 1000 relayList "gm") =
      Ok zapRequestEvent /\
    createInvoice Scenario.zapOk Scenario.recipient "gm" 1000 "abc123"
      Scenario.fresh = (Ok Scenario.invoice, w') /\
    fetch_calls w' =
      [ ("https://pay.example/cb?" ++
         URLSearchParams_toString
           [ ("foo", "1"); ("comment", "gm"); ("amount", "1000000");
             ("nostr",
              JSON_stringify (JSON_of_EventTemplate zapRequestEvent)) ]
        )%string ]%list /\
    t_content zapRequestEvent = "gm" /\
    In ["e"; "abc123"]%list (t_tags zapRequestEvent) /\
    In ["amount"; "1000"]%list (t_tags zapRequestEvent) /\
    ~ In ["amount"; "1000000"]%list (t_tags zapRequestEvent).
Proof.
  eexists. eexists.
  split; [reflexivity|]. split; [vm_compute; reflexivity|].
  split; [vm_compute; reflexivity|]. split; [reflexivity|].
  split; [cbn; tauto|]. split; [cbn; tauto|].
  cbn. intros [H|[H|[H|[H|[]]]]]; discriminate H.
Qed.

(* ================================================================== *)
(** ** Frames: what a computation leaves alone *)

Section Keeps.

Context {X : Type} (f : World -> X).

Lemma keeps_ret {A} (a : A) : keeps f (ret a).
Proof. intros w. reflexivity. Qed.

Lemma keeps_throw {A} (e : JsError) : keeps f (@throw A e).
Proof. intros w. reflexivity. Qed.

Lemma keeps_lift {A} (r : JsResult A) : keeps f (lift r).
Proof. intros w. reflexivity. Qed.

Lemma keeps_gets {A} (g : World -> A) : keeps f (gets g).
Proof. intros w. reflexivity. Qed.

Lemma keeps_modify (g : World -> World) :
  (forall w, f (g w) = f w) -> keeps f (modify g).
Proof. intros H w. exact (H w). Qed.

Lemma keeps_bind {A B} (m : Js A) (k : A -> Js B) :
  keeps f m -> (forall a, keeps f (k a)) -> keeps f (bind m k).
Proof.
  intros Hm Hk w. unfold bind. specialize (Hm w).
  destruct (m w) as [[a|e] w1]; cbn in *.
  - rewrite (Hk a w1). exact Hm.
  - exact Hm.
Qed.

Lemma keeps_try_catch {A} (m : Js A) (h : JsError -> Js A) :
  keeps f m -> (forall e, keeps f (h e)) -> keeps f (try_catch m h).
Proof.
  intros Hm Hh w. unfold try_catch. specialize (Hm w).
  destruct (m w) as [[a|e] w1]; cbn in *.
  - exact Hm.
  - rewrite (Hh e w1). exact Hm.
Qed.

End Keeps.

(** Splits a frame goal along the structure of the program; what is left
    are the state updates that do touch the observation. *)
Ltac frame_step :=
  match goal with
  | |- keeps _ (bind _ _) => apply keeps_bind; [|intros ?]
  | |- keeps _ (try_catch _ _) => apply keeps_try_catch; [|intros ?]
  | |- keeps _ (ret _) => apply keeps_ret
  | |- keeps _ (throw _) => apply keeps_throw
  | |- keeps _ (lift _) => apply keeps_lift
  | |- keeps _ (gets _) => apply keeps_gets
  | |- keeps _ (modify _) => apply keeps_modify; intros ?; reflexivity
  | |- keeps _ (match ?x with _ => _ end) => destruct x
  end.

Ltac frame := repeat frame_step.

Lemma keeps_nostrNowBasic {X} (f : World -> X) (E : Env) :
  (forall n w, f (with_clock_reads n w) = f w) -> keeps f (nostrNowBasic E).
Proof.
  intros H. unfold nostrNowBasic. frame. apply keeps_modify. intros w. apply H.
Qed.

Lemma keeps_window_nostr_nip04 {X} (f : World -> X) (E : Env) :
  keeps f (window_nostr_nip04 E).
Proof. unfold window_nostr_nip04. frame. Qed.

Lemma keeps_makeEvent {X} (f : World -> X) (E : Env) (kind : Z)
    (content : string) (tags : list (list string)) :
  (forall n w, f (with_clock_reads n w) = f w) ->
  keeps f (makeEvent E kind content tags).
Proof.
  intros H. unfold makeEvent, makeNostrEvent, signWithExtension.
  frame; apply keeps_nostrNowBasic; exact H.
Qed.

Lemma keeps_encryptDM {X} (f : World -> X) (E : Env) (other text : string) :
  keeps f (encryptDM E other text).
Proof.
  unfold encryptDM, getPrivkey. frame; apply keeps_window_nostr_nip04.
Qed.

Lemma keeps_decryptDM {X} (f : World -> X) (E : Env) (other text : string) :
  keeps f (decryptDM E other text).
Proof.
  unfold decryptDM, getPrivkey. frame; apply keeps_window_nostr_nip04.
Qed.

Lemma keeps_getProfileMetadata {X} (f : World -> X) (E : Env)
    (publicKey : string) :
  (forall v w, f (with_profilesMetadata v w) = f w) ->
  (forall v w, f (with_relay_queries v w) = f w) ->
  (forall v w, f (with_console_errors v w) = f w) ->
  keeps f (getProfileMetadata E publicKey).
Proof.
  intros Hcache Hrelay Hlog.
  unfold getProfileMetadata, relayPool_query, console_error.
  frame; apply keeps_modify; intros w; auto.
Qed.

Lemma keeps_fetch_url {X} (f : World -> X) (E : Env) (url : string) :
  (forall v w, f (with_fetch_calls v w) = f w) -> keeps f (fetch_url E url).
Proof.
  intros H. unfold fetch_url. frame. apply keeps_modify. intros w. apply H.
Qed.

Lemma keeps_Response_json {X} (f : World -> X) (r : Response) :
  (forall v w, f (with_json_calls v w) = f w) -> keeps f (Response_json r).
Proof.
  intros H. unfold Response_json. frame. apply keeps_modify. intros w. apply H.
Qed.

Lemma keeps_createInvoice {X} (f : World -> X) (E : Env)
    (destination message : string) (amount : Z) (eventId : string) :
  (forall v w, f (with_profilesMetadata v w) = f w) ->
  (forall v w, f (with_relay_queries v w) = f w) ->
  (forall v w, f (with_console_errors v w) = f w) ->
  (forall v w, f (with_fetch_calls v w) = f w) ->
  (forall v w, f (with_json_calls v w) = f w) ->
  keeps f (createInvoice E destination message amount eventId).
Proof.
  intros Hcache Hrelay Hlog Hfetch Hjson.
  unfold createInvoice, console_error.
  frame;
    first [ apply keeps_getProfileMetadata; assumption
          | apply keeps_fetch_url; assumption
          | apply keeps_Response_json; assumption
          | apply keeps_modify; intros w; auto ].
Qed.

Lemma keeps_checkPayment {X} (f : World -> X) (E : Env) (verify : string) :
  (forall v w, f (with_console_errors v w) = f w) ->
  (forall v w, f (with_fetch_calls v w) = f w) ->
  (forall v w, f (with_json_calls v w) = f w) ->
  keeps f (checkPayment E verify).
Proof.
  intros Hlog Hfetch Hjson. unfold checkPayment, console_error.
  frame;
    first [ apply keeps_fetch_url; assumption
          | apply keeps_Response_json; assumption
          | apply keeps_modify; intros w; auto ].
Qed.

(* ================================================================== *)
(** ** More about the session *)

(** X1. Signing, encrypting and decrypting never change the session, the
    slot, the profile cache, the notifications or the key generator,
    whether they succeed or throw. *)
Theorem signing_leaves_the_session (E : Env) (kind : Z) (content : string)
    (tags : list (list string)) (other text : string) (w : World) :
  Forall
    (fun w' =>
       store w' = store w /\
       sessionStorage w' = sessionStorage w /\
       profilesMetadata w' = profilesMetadata w /\
       clipboard w' = clipboard w /\
       alerts w' = alerts w /\
       keygen_calls w' = keygen_calls w /\
       fetch_calls w' = fetch_calls w /\
       relay_queries w' = relay_queries w)
    [ snd (makeEvent E kind content tags w);
      snd (encryptDM E other text w);
      snd (decryptDM E other text w) ]%list.
Proof.
  repeat constructor;
    first [ apply keeps_makeEvent; reflexivity
          | apply keeps_encryptDM
          | apply keeps_decryptDM ].
Qed.

(** X2. The timestamp of an event is the clock in whole seconds, rounded
    down: [1000 * s <= Date.now() < 1000 * s + 1000], also before 1970; one
    clock read is consumed. *)
Theorem nostrNowBasic_seconds (E : Env) (w : World) :
  exists s,
    nostrNowBasic E w = (Ok s, with_clock_reads (S (clock_reads w)) w) /\
    (1000 * s <= Date_now E (clock_reads w) < 1000 * s + 1000)%Z.
Proof.
  exists (Date_now E (clock_reads w) / 1000)%Z.
  split; [reflexivity|].
  pose proof (Z.div_mod (Date_now E (clock_reads w)) 1000 ltac:(lia)).
  pose proof (Z.mod_pos_bound (Date_now E (clock_reads w)) 1000 ltac:(lia)).
  lia.
Qed.

(** X3. With a local-key session the extension is never asked: [makeEvent]
    hands the template, stamped with the clock in seconds, and the bytes of
    the stored secret to [finalizeEvent]; [encryptDM] and [decryptDM] call
    nip04 with the stored secret and change nothing. *)
Theorem local_session_dispatch (E : Env) (w : World) (sk pk : string)
    (kind : Z) (content : string) (tags : list (list string))
    (other text : string) :
  session w = Active (LocalKey sk) pk ->
  makeEvent E kind content tags w =
    (finalizeEvent E
       (mkTemplate kind (Date_now E (clock_reads w) / 1000) content tags)
       (Buffer_from_hex sk),
     with_clock_reads (S (clock_reads w)) w) /\
  encryptDM E other text w = (nip04_encrypt E sk other text, w) /\
  decryptDM E other text w = (nip04_decrypt E sk other text, w).
Proof.
  unfold session. intros Hs.
  destruct (store w) as [[[sk'|] pk']|] eqn:Hstore; try discriminate Hs.
  cbn in Hs. destruct (truthy sk') eqn:Htruthy; [|discriminate Hs].
  injection Hs as -> ->.
  unfold makeEvent, makeNostrEvent, nostrNowBasic, encryptDM, decryptDM.
  js_run. rewrite Hstore. cbn. rewrite Htruthy. cbn.
  repeat split.
Qed.

Lemma local_session_dispatch_witness :
  exists w1,
    loginWithPrivkey Scenario.withExtension Scenario.secretOneHex
      Scenario.fresh = (Ok tt, w1) /\
    encryptDM Scenario.withExtension "peer" "hello" w1 =
      (Ok "local-ciphertext?iv=local-iv", w1).
Proof.
  eexists. split; [reflexivity|].
  exact (proj1 (proj2
    (local_session_dispatch Scenario.withExtension
       (snd (loginWithPrivkey Scenario.withExtension Scenario.secretOneHex
               Scenario.fresh))
       Scenario.secretOneHex Scenario.pubkeyOne 1 "hello" [] "peer" "hello"
       eq_refl))).
Defined.

(** X4. With a session that holds a public key only, everything goes to
    the extension.  [makeEvent] builds the blank event (kind, content, tags,
    the stored public key, the clock in seconds) and returns what
    [signEvent] returns for it; [encryptDM] and [decryptDM] return what the
    [nip04] member returns.  When the extension (or, for the messages, its
    [nip04] member) is gone they fail with a TypeError.  One clock read by
    [makeEvent] is the only change to the world. *)
Theorem external_session_dispatch (E : Env) (w : World) (pk : string)
    (kind : Z) (content : string) (tags : list (list string))
    (other text : string) :
  session w = Active ExternalSigner pk ->
  (exists r,
     makeEvent E kind content tags w =
       (r, with_clock_reads (S (clock_reads w)) w) /\
     match window_nostr E with
     | Some ext =>
         r = ext_signEvent ext
               (mkUnsigned kind content (Date_now E (clock_reads w) / 1000)
                  tags pk)
     | None => exists msg, r = Throw (TypeError msg)
     end) /\
  match window_nostr E with
  | Some (mkNip07 _ _ (Some cap)) =>
      encryptDM E other text w = (ext_encrypt cap other text, w) /\
      decryptDM E other text w = (ext_decrypt cap other text, w)
  | _ =>
      exists msg,
        encryptDM E other text w = (Throw (TypeError msg), w) /\
        decryptDM E other text w = (Throw (TypeError msg), w)
  end.
Proof.
  unfold session. intros Hs. split.
  - assert (Hrun : makeEvent E kind content tags w =
                   signWithExtension E pk kind content tags w).
    { unfold makeEvent. js_run.
      destruct (store w) as [[[sk'|] pk']|]; try discriminate Hs; cbn in *.
      - destruct (truthy sk'); [discriminate Hs|]. injection Hs as ->.
        reflexivity.
      - injection Hs as ->. reflexivity. }
    rewrite Hrun. unfold signWithExtension, nostrNowBasic. js_run.
    destruct (window_nostr E) as [ext|]; cbn.
    + eexists. split; [|reflexivity].
      destruct (ext_signEvent ext _); reflexivity.
    + eexists. split; [reflexivity|]. eexists. reflexivity.
  - assert (Hen : encryptDM E other text w =
                  bind (window_nostr_nip04 E)
                    (fun cap => lift (ext_encrypt cap other text)) w).
    { unfold encryptDM. js_run.
      destruct (store w) as [[[sk'|] pk']|]; try discriminate Hs; cbn in *;
        [destruct (truthy sk'); [discriminate Hs|]|]; reflexivity. }
    assert (Hde : decryptDM E other text w =
                  bind (window_nostr_nip04 E)
                    (fun cap => lift (ext_decrypt cap other text)) w).
    { unfold decryptDM. js_run.
      destruct (store w) as [[[sk'|] pk']|]; try discriminate Hs; cbn in *;
        [destruct (truthy sk'); [discriminate Hs|]|]; reflexivity. }
    rewrite Hen, Hde. unfold window_nostr_nip04. js_run.
    destruct (window_nostr E) as [[gp sign [cap|]]|]; cbn.
    + split.
      * destruct (ext_encrypt cap other text); reflexivity.
      * destruct (ext_decrypt cap other text); reflexivity.
    + eexists. split; reflexivity.
    + eexists. split; reflexivity.
Qed.

Lemma external_session_dispatch_witness :
  exists w1,
    tryLogin Scenario.withExtension Scenario.fresh = (Ok true, w1) /\
    makeEvent Scenario.withExtension 1 "hello" [] w1 =
      (Ok (mkEvent "ext-id" Scenario.P 1700000000 1 [] "hello" "ext-sig"),
       with_clock_reads (S (clock_reads w1)) w1) /\
    encryptDM Scenario.withExtension "peer" "hello" w1 =
      (Ok "ext-ciphertext?iv=ext-iv", w1).
Proof.
  exists (snd (tryLogin Scenario.withExtension Scenario.fresh)).
  split; [reflexivity|].
  pose proof (external_session_dispatch Scenario.withExtension
                (snd (tryLogin Scenario.withExtension Scenario.fresh))
                Scenario.P 1 "hello" [] "peer" "hello" eq_refl) as H.
  destruct H as ((r & Hrun & Hr) & H).
  change (r = Ok (mkEvent "ext-id" Scenario.P 1700000000 1 [] "hello"
                    "ext-sig")) in Hr.
  subst r. split; [exact Hrun | exact (proj1 H)].
Defined.

(** X5. [getPrivkey] and [getPubkey] read back what a login stored:
    after [loginWithPrivkey] the text as given and the derived public key,
    and nothing after a following [signOut]. *)
Theorem getters_read_back (E : Env) (hex pk : string) (w : World) :
  getPublicKey E (Buffer_from_hex hex) = Ok pk ->
  exists w1 w2,
    loginWithPrivkey E hex w = (Ok tt, w1) /\
    getPrivkey w1 = (Ok (Some hex), w1) /\
    getPubkey w1 = (Ok (Some pk), w1) /\
    signOut w1 = (Ok tt, w2) /\
    getPrivkey w2 = (Ok None, w2) /\
    getPubkey w2 = (Ok None, w2).
Proof.
  intros Hpk. rewrite loginWithPrivkey_eq, Hpk.
  do 2 eexists. split; [reflexivity|].
  split.
  { unfold getPrivkey. js_run. cbn. destruct (truthy hex); reflexivity. }
  split.
  { unfold getPubkey. js_run. cbn. destruct (truthy hex); reflexivity. }
  split; [reflexivity|]. split; reflexivity.
Qed.

Lemma getters_read_back_witness :
  exists w1 w2,
    loginWithPrivkey Scenario.noExtension Scenario.secretOneHex
      Scenario.fresh = (Ok tt, w1) /\
    getPrivkey w1 = (Ok (Some Scenario.secretOneHex), w1) /\
    getPubkey w1 = (Ok (Some Scenario.pubkeyOne), w1) /\
    signOut w1 = (Ok tt, w2) /\
    getPrivkey w2 = (Ok None, w2) /\
    getPubkey w2 = (Ok None, w2).
Proof.
  exact (getters_read_back Scenario.noExtension Scenario.secretOneHex
           Scenario.pubkeyOne Scenario.fresh eq_refl).
Defined.

Lemma Buffer_toString_hex_truthy (bs : list byte) :
  bs <> []%list -> truthy (Buffer_toString_hex bs) = true.
Proof.
  destruct bs; [intros H; now elim H | reflexivity].
Qed.

Lemma loginWithRandomKeys_eq (E : Env) (w : World) :
  loginWithRandomKeys E w =
  let sk := generateSecretKey E (keygen_calls w) in
  let w0 := with_keygen_calls (S (keygen_calls w)) w in
  match getPublicKey E sk with
  | Throw e => (Throw e, w0)
  | Ok pk =>
      let keys := Some (mkKeys (Some (Buffer_toString_hex sk)) pk) in
      (Ok true,
       persist keys
         (with_store keys
            (with_alerts (alerts w ++ [advisory])%list
               (with_clipboard
                  (clipboard w ++
                   [("private key: " ++ Uint8Array_toString sk ++ newline ++
                     "public key: " ++ pk)%string])%list w0))))
  end.
Proof.
  unfold loginWithRandomKeys. js_run. cbv zeta.
  destruct (getPublicKey E (generateSecretKey E (keygen_calls w)));
    reflexivity.
Qed.

(** X6. A key generated by [loginWithRandomKeys] is a session like any
    other: its hex form is persisted, a restart restores the same secret and
    public key, and [makeEvent] signs with exactly the generated bytes
    (hex encoding and decoding of the key cancel out). *)
Theorem random_login_round_trip (E : Env) (w : World) (pk : string)
    (kind : Z) (content : string) (tags : list (list string)) :
  getPublicKey E (generateSecretKey E (keygen_calls w)) = Ok pk ->
  generateSecretKey E (keygen_calls w) <> []%list ->
  exists w1 w2,
    loginWithRandomKeys E w = (Ok true, w1) /\
    session w1 =
      Active (LocalKey
                (Buffer_toString_hex (generateSecretKey E (keygen_calls w))))
             pk /\
    sessionStorage w1 =
      Some (Buffer_toString_hex (generateSecretKey E (keygen_calls w))) /\
    restart E w1 = (Ok tt, w2) /\
    session w2 = session w1 /\
    same_outside w1 w2 /\
    fst (makeEvent E kind content tags w1) =
      finalizeEvent E
        (mkTemplate kind (Date_now E (clock_reads w) / 1000) content tags)
        (generateSecretKey E (keygen_calls w)).
Proof.
  intros Hpk Hne.
  pose proof (Buffer_toString_hex_truthy _ Hne) as Htruthy.
  set (sk := generateSecretKey E (keygen_calls w)) in *.
  rewrite loginWithRandomKeys_eq. cbv zeta. fold sk. rewrite Hpk.
  do 2 eexists. split; [reflexivity|].
  assert (Hsession :
            forall w0, session (persist
                         (Some (mkKeys (Some (Buffer_toString_hex sk)) pk))
                         (with_store
                            (Some (mkKeys (Some (Buffer_toString_hex sk)) pk))
                            w0)) =
                       Active (LocalKey (Buffer_toString_hex sk)) pk).
  { intros w0. unfold session. cbn. rewrite Htruthy. cbn. rewrite Htruthy.
    reflexivity. }
  split; [apply Hsession|].
  split; [rewrite persist_slot; rewrite Htruthy; reflexivity|].
  split.
  { unfold restart. js_run. cbn. rewrite Htruthy. cbn.
    unfold nostrAuth_init. js_run. cbn. rewrite Htruthy.
    rewrite Buffer_hex_roundtrip, Hpk. cbn. rewrite Htruthy. reflexivity. }
  split; [rewrite Hsession; unfold session; cbn; rewrite Htruthy;
          reflexivity|].
  split; [unfold same_outside; cbn; rewrite Htruthy; cbn; repeat split|].
  unfold makeEvent, makeNostrEvent, nostrNowBasic. js_run. cbn.
  rewrite Htruthy. cbn. rewrite Htruthy. cbn.
  rewrite Buffer_hex_roundtrip.
  destruct (finalizeEvent E _ sk); reflexivity.
Qed.

Lemma random_login_round_trip_witness :
  exists w1 w2,
    loginWithRandomKeys Scenario.noExtension Scenario.fresh = (Ok true, w1) /\
    session w1 = Active (LocalKey Scenario.secretOneHex) Scenario.pubkeyOne /\
    sessionStorage w1 = Some Scenario.secretOneHex /\
    restart Scenario.noExtension w1 = (Ok tt, w2) /\
    session w2 = session w1 /\
    same_outside w1 w2 /\
    fst (makeEvent Scenario.noExtension 1 "hello" [] w1) =
      Ok (mkEvent "event-id" Scenario.pubkeyOne 1700000000 1 [] "hello"
            "event-sig").
Proof.
  exact (random_login_round_trip Scenario.noExtension Scenario.fresh
           Scenario.pubkeyOne 1 "hello" [] eq_refl
           (fun H => match H in (_ = l) return
                             match l with [] => False | _ :: _ => True end
                     with eq_refl => I end)).
Defined.

(** X7. [signOut] logs out from every state: whatever the session and the
    slot were (none, local key, extension, even a slot the module could not
    read back), the store is emptied and the slot removed, and nothing else
    changes; a reload after it succeeds and stays logged out, and a second
    [signOut] changes nothing more. *)
Theorem signOut_from_any_state (E : Env) (w : World) :
  exists w1 w2,
    signOut w = (Ok tt, w1) /\
    session w1 = LoggedOut /\
    sessionStorage w1 = None /\
    profilesMetadata w1 = profilesMetadata w /\
    clipboard w1 = clipboard w /\
    alerts w1 = alerts w /\
    console_errors w1 = console_errors w /\
    signOut w1 = (Ok tt, w1) /\
    restart E w1 = (Ok tt, w2) /\
    session w2 = LoggedOut /\
    sessionStorage w2 = None.
Proof.
  set (w1 := with_sessionStorage None (with_store None w)).
  exists w1, (with_store None (with_profilesMetadata [] (with_store None w1))).
  split; [reflexivity|].
  do 7 (split; [reflexivity|]).
  split; [|split; reflexivity].
  unfold restart. js_run.
  rewrite nostrAuth_init_empty by reflexivity. reflexivity.
Qed.

(* ------------------------------------------------------------------ *)
(** *** The slot mirrors the session *)

Lemma coherent_same_session (E : Env) (w w' : World) :
  store w' = store w -> sessionStorage w' = sessionStorage w ->
  coherent E w -> coherent E w'.
Proof.
  unfold coherent, session. intros -> ->. exact (fun H => H).
Qed.

Lemma coherent_local (E : Env) (sk pk : string) (w : World) :
  truthy sk = true ->
  getPublicKey E (Buffer_from_hex sk) = Ok pk ->
  coherent E (persist (Some (mkKeys (Some sk) pk))
                (with_store (Some (mkKeys (Some sk) pk)) w)).
Proof.
  intros Htruthy Hpk. unfold coherent, session. cbn. rewrite Htruthy. cbn.
  rewrite Htruthy. split; [reflexivity | exact Hpk].
Qed.

(** In a coherent world with a sane derivation, a store without a truthy
    public key means an empty slot. *)
Lemma coherent_no_pubkey (E : Env) (w : World) :
  derivation_sane E -> coherent E w ->
  truthy_opt (option_map pubkey (store w)) = false ->
  sessionStorage w = None.
Proof.
  unfold coherent, session. intros Hsane Hco Hcur.
  destruct (store w) as [[[sk|] pk]|]; cbn in *; try exact Hco.
  destruct (truthy sk); [|exact Hco].
  destruct Hco as [_ Hpk]. apply Hsane in Hpk as [_ Hpk]. congruence.
Qed.

Lemma coherent_restart (E : Env) (w : World) :
  coherent E w ->
  exists w',
    restart E w = (Ok tt, w') /\
    session w' = restored (session w) /\
    same_outside w w' /\
    coherent E w'.
Proof.
  unfold coherent. intros Hco.
  destruct (session w) as [|[sk|] pk] eqn:Hs.
  - exists (with_store None (with_profilesMetadata [] w)).
    split; [|repeat split; cbn; exact Hco].
    unfold restart. js_run. rewrite nostrAuth_init_empty by exact Hco.
    reflexivity.
  - destruct Hco as [Hslot Hpk].
    assert (Htruthy : truthy sk = true).
    { unfold session in Hs.
      destruct (store w) as [[[sk'|] pk']|]; try discriminate Hs. cbn in Hs.
      destruct (truthy sk') eqn:Ht; [|discriminate Hs].
      injection Hs as -> _. exact Ht. }
    exists (with_sessionStorage (Some sk)
              (with_store (Some (mkKeys (Some sk) pk))
                 (with_profilesMetadata [] w))).
    split.
    { unfold restart. js_run.
      rewrite (nostrAuth_init_restores E sk pk) by (cbn; assumption).
      reflexivity. }
    split; [unfold session; cbn; rewrite Htruthy; reflexivity|].
    split; [unfold same_outside; cbn; repeat split; symmetry; exact Hslot|].
    unfold session. cbn. rewrite Htruthy. split; [reflexivity | exact Hpk].
  - exists (with_store None (with_profilesMetadata [] w)).
    split; [|repeat split; cbn; exact Hco].
    unfold restart. js_run. rewrite nostrAuth_init_empty by exact Hco.
    reflexivity.
Qed.

Lemma coherent_after (E : Env) (c : Call) (w : World) :
  derivation_sane E -> coherent E w -> coherent E (after E c w).
Proof.
  intros Hsane Hco.
  destruct c as [ | | hex | | | | | | | | ]; cbn [after].
  - (* signOut *) reflexivity.
  - (* loginWithRandomKeys *)
    rewrite loginWithRandomKeys_eq. cbv zeta.
    destruct (getPublicKey E (generateSecretKey E (keygen_calls w)))
      as [pk|e] eqn:Hpk; cbn [snd].
    + destruct (Hsane _ _ Hpk) as [Hne _].
      apply coherent_local.
      * apply Buffer_toString_hex_truthy. exact Hne.
      * rewrite Buffer_hex_roundtrip. exact Hpk.
    + exact (coherent_same_session E w _ eq_refl eq_refl Hco).
  - (* loginWithPrivkey *)
    rewrite loginWithPrivkey_eq.
    destruct (getPublicKey E (Buffer_from_hex hex)) as [pk|e] eqn:Hpk;
      cbn [snd]; [|exact Hco].
    apply coherent_local; [|exact Hpk].
    destruct (Hsane _ _ Hpk) as [Hne _].
    destruct hex; [now elim Hne | reflexivity].
  - (* tryLogin *)
    unfold tryLogin. js_run.
    destruct (truthy_opt (option_map pubkey (store w))) eqn:Hcur;
      [exact Hco|].
    pose proof (coherent_no_pubkey E w Hsane Hco Hcur) as Hslot.
    assert (Hfallback : coherent E (snd (loginWithRandomKeys E w))).
    { rewrite loginWithRandomKeys_eq. cbv zeta.
      destruct (getPublicKey E (generateSecretKey E (keygen_calls w)))
        as [pk|e] eqn:Hpk; cbn [snd].
      + destruct (Hsane _ _ Hpk) as [Hne _].
        apply coherent_local.
        * apply Buffer_toString_hex_truthy. exact Hne.
        * rewrite Buffer_hex_roundtrip. exact Hpk.
      + exact (coherent_same_session E w _ eq_refl eq_refl Hco). }
    destruct (window_nostr E) as [ext|]; [|exact Hfallback].
    destruct (ext_getPublicKey ext) as [pk|e]; cbn; [|exact Hfallback].
    unfold coherent, session. cbn. exact Hslot.
  - (* encryptDM *)
    apply (coherent_same_session E w); [apply keeps_encryptDM ..|exact Hco].
  - (* decryptDM *)
    apply (coherent_same_session E w); [apply keeps_decryptDM ..|exact Hco].
  - (* makeEvent *)
    apply (coherent_same_session E w);
      [apply keeps_makeEvent; reflexivity ..|exact Hco].
  - (* getProfileMetadata *)
    apply (coherent_same_session E w);
      [apply keeps_getProfileMetadata; reflexivity ..|exact Hco].
  - (* createInvoice *)
    apply (coherent_same_session E w);
      [apply keeps_createInvoice; reflexivity ..|exact Hco].
  - (* checkPayment *)
    apply (coherent_same_session E w);
      [apply keeps_checkPayment; reflexivity ..|exact Hco].
  - (* restart *)
    destruct (coherent_restart E w Hco) as (w' & Hrun & _ & _ & Hco').
    rewrite Hrun. exact Hco'.
Qed.

Lemma coherent_after_all (E : Env) (calls : list Call) (w : World) :
  derivation_sane E ->
  store w = None -> sessionStorage w = None ->
  coherent E (after_all E calls w).
Proof.
  intros Hsane Hstore Hslot.
  assert (Hco : coherent E w)
    by (unfold coherent, session; rewrite Hstore; exact Hslot).
  clear Hstore Hslot. revert w Hco.
  induction calls as [|c calls IH]; intros w Hco; [exact Hco|].
  cbn. apply IH. apply coherent_after; assumption.
Qed.

(** X8. The slot mirrors the session, whatever the application does.  From
    a logged-out page with an empty slot, after any sequence of calls of the
    exported functions and of page reloads, the slot is non-empty exactly
    when a local-key session is active, and then holds the secret of that
    session, whose public key is the one derived from it.  (The derivation
    of the library rejects the empty key and returns non-empty keys.) *)
Theorem slot_mirrors_session (E : Env) (calls : list Call) (w : World) :
  derivation_sane E ->
  store w = None -> sessionStorage w = None ->
  match session (after_all E calls w) with
  | Active (LocalKey sk) pk =>
      sessionStorage (after_all E calls w) = Some sk /\
      getPublicKey E (Buffer_from_hex sk) = Ok pk
  | _ => sessionStorage (after_all E calls w) = None
  end.
Proof.
  exact (coherent_after_all E calls w).
Qed.

Lemma scenario_derivation_sane (ext : option Nip07)
    (relay : nat -> list string -> Filter -> JsResult (option Event))
    (lnurl : Event -> JsResult (option string))
    (http : nat -> string -> JsResult Response) :
  derivation_sane (Scenario.env ext relay lnurl http).
Proof.
  intros bs pk. cbn. unfold Scenario.getPublicKey.
  destruct bs as [|b bs]; [discriminate|].
  destruct (String.eqb _ _); [|discriminate].
  intros H. injection H as <-. split; [discriminate | reflexivity].
Defined.

Lemma slot_mirrors_session_witness :
  session
    (after_all Scenario.withExtension
       [ Call_tryLogin; Call_makeEvent 1 "hello" [];
         Call_loginWithPrivkey Scenario.secretOneHex; Call_restart;
         Call_signOut; Call_loginWithRandomKeys ]%list
       Scenario.fresh) =
    Active (LocalKey Scenario.secretOneHex) Scenario.pubkeyOne /\
  sessionStorage
    (after_all Scenario.withExtension
       [ Call_tryLogin; Call_makeEvent 1 "hello" [];
         Call_loginWithPrivkey Scenario.secretOneHex; Call_restart;
         Call_signOut; Call_loginWithRandomKeys ]%list
       Scenario.fresh) = Some Scenario.secretOneHex.
Proof.
  split; [reflexivity|].
  exact (proj1
    (slot_mirrors_session Scenario.withExtension
       [ Call_tryLogin; Call_makeEvent 1 "hello" [];
         Call_loginWithPrivkey Scenario.secretOneHex; Call_restart;
         Call_signOut; Call_loginWithRandomKeys ]%list
       Scenario.fresh
       (scenario_derivation_sane _ _ _ _) eq_refl eq_refl)).
Defined.

(** X9. A reload never fails on a world the module itself produced, and
    keeps exactly the local-key sessions: from a logged-out page with an
    empty slot and after any calls, a restart returns normally, a local-key
    session comes back with the same secret and public key, any other
    session is logged out, and nothing outside the module changes. *)
Theorem restart_keeps_local_sessions (E : Env) (calls : list Call)
    (w : World) :
  derivation_sane E ->
  store w = None -> sessionStorage w = None ->
  exists w',
    restart E (after_all E calls w) = (Ok tt, w') /\
    session w' = restored (session (after_all E calls w)) /\
    same_outside (after_all E calls w) w'.
Proof.
  intros Hsane Hstore Hslot.
  destruct (coherent_restart E _
              (coherent_after_all E calls w Hsane Hstore Hslot))
    as (w' & Hrun & Hs & Hout & _).
  exists w'. split; [exact Hrun|]. split; [exact Hs | exact Hout].
Qed.

Lemma restart_keeps_local_sessions_witness :
  exists w',
    restart Scenario.withExtension
      (after_all Scenario.withExtension
         [ Call_loginWithPrivkey Scenario.secretOneHex;
           Call_createInvoice Scenario.recipient "gm" 1000 "abc123" ]%list
         Scenario.fresh) = (Ok tt, w') /\
    session w' = Active (LocalKey Scenario.secretOneHex) Scenario.pubkeyOne.
Proof.
  destruct (restart_keeps_local_sessions Scenario.withExtension
              [ Call_loginWithPrivkey Scenario.secretOneHex;
                Call_createInvoice Scenario.recipient "gm" 1000 "abc123" ]%list
              Scenario.fresh
              (scenario_derivation_sane _ _ _ _) eq_refl eq_refl)
    as (w' & Hrun & Hs & _).
  exists w'. split; [exact Hrun | exact Hs].
Defined.

(** X10. [tryLogin] is idempotent: a second call right after the first
    returns [true] and changes nothing, so no second key is generated, no
    second advisory is shown and the extension is not asked again.  (The
    public keys the library and the extension return are non-empty, and the
    generated keys are valid.) *)
Theorem tryLogin_twice (E : Env) (w : World) :
  derivation_sane E ->
  keygen_sound E ->
  (forall ext pk, window_nostr E = Some ext ->
                  ext_getPublicKey ext = Ok pk -> truthy pk = true) ->
  exists w1,
    tryLogin E w = (Ok true, w1) /\
    tryLogin E w1 = (Ok true, w1).
Proof.
  intros Hsane Hgen Hext.
  assert (Hnoop : forall w0, truthy_opt (option_map pubkey (store w0)) = true ->
                             tryLogin E w0 = (Ok true, w0)).
  { intros w0 H. unfold tryLogin. js_run. rewrite H. reflexivity. }
  destruct (truthy_opt (option_map pubkey (store w))) eqn:Hcur.
  { exists w. split; apply Hnoop; exact Hcur. }
  assert (Hfallback : exists w1, loginWithRandomKeys E w = (Ok true, w1) /\
                        truthy_opt (option_map pubkey (store w1)) = true).
  { rewrite loginWithRandomKeys_eq. cbv zeta.
    destruct (Hgen (keygen_calls w)) as [pk Hpk]. rewrite Hpk.
    eexists. split; [reflexivity|].
    destruct (Hsane _ _ Hpk) as [_ Htruthy]. cbn.
    destruct (truthy (Buffer_toString_hex _)); exact Htruthy. }
  destruct Hfallback as (wf & Hrun & Hactive).
  unfold tryLogin at 1. js_run. rewrite Hcur.
  destruct (window_nostr E) as [ext|] eqn:Hwin.
  - destruct (ext_getPublicKey ext) as [pk|e] eqn:Hpk; cbn.
    + eexists. split; [reflexivity|]. apply Hnoop. cbn.
      exact (Hext ext pk eq_refl Hpk).
    + exists wf. split; [exact Hrun | exact (Hnoop wf Hactive)].
  - exists wf. split; [exact Hrun | exact (Hnoop wf Hactive)].
Qed.

Lemma tryLogin_twice_witness :
  exists w1,
    tryLogin Scenario.withRejecting Scenario.fresh = (Ok true, w1) /\
    tryLogin Scenario.withRejecting w1 = (Ok true, w1).
Proof.
  refine (tryLogin_twice Scenario.withRejecting Scenario.fresh
            (scenario_derivation_sane _ _ _ _)
            (scenario_keygen_sound (Some Scenario.rejecting)) _).
  intros ext pk Hwin. injection Hwin as <-. discriminate.
Defined.

(* ================================================================== *)
(** ** More about the profile cache *)

Lemma find_app_hit {A} (f : A -> bool) (l l' : list A) (x : A) :
  find f l = Some x -> find f (l ++ l')%list = Some x.
Proof.
  induction l as [|a l IH]; cbn; [discriminate|].
  destruct (f a); [exact (fun H => H) | exact IH].
Qed.

(** Resolution appends at most one event to the cache. *)
Lemma getProfileMetadata_cache (E : Env) (publicKey : string) (w : World) :
  exists l,
    profilesMetadata (snd (getProfileMetadata E publicKey w)) =
      (profilesMetadata w ++ l)%list /\
    (List.length l <= 1)%nat.
Proof.
  rewrite getProfileMetadata_eq.
  destruct (cached publicKey w).
  - exists []%list. cbn. rewrite app_nil_r. split; [reflexivity | cbn; lia].
  - cbv zeta. destruct (relayPool_get E _ _ _) as [[ev|]|e]; cbn.
    + exists [ev]%list. split; [reflexivity | cbn; lia].
    + exists []%list. rewrite app_nil_r. split; [reflexivity | cbn; lia].
    + exists []%list. rewrite app_nil_r. split; [reflexivity | cbn; lia].
Qed.

Lemma createInvoice_cache (E : Env) (destination message : string)
    (amount : Z) (eventId : string) (w : World) :
  exists l,
    profilesMetadata
      (snd (createInvoice E destination message amount eventId w)) =
      (profilesMetadata w ++ l)%list /\
    (List.length l <= 1)%nat.
Proof.
  assert (Hrest : forall (m : Js JSON) (w0 : World),
            keeps profilesMetadata m ->
            profilesMetadata (snd (m w0)) = profilesMetadata w0)
    by (intros m w0 H; apply H).
  unfold createInvoice, try_catch, bind at 1.
  destruct (decode E destination) as [publicKey|e]; cbn [lift].
  - unfold bind at 1.
    destruct (getProfileMetadata_cache E publicKey w) as (l & Hl & Hlen).
    destruct (getProfileMetadata E publicKey w) as [[profile|e] w1];
      cbn [snd] in Hl.
    + exists l. split; [|exact Hlen]. rewrite <- Hl.
      match goal with
      | |- profilesMetadata (snd (let (_, _) := ?m w1 in _)) = _ =>
          assert (Hm : keeps profilesMetadata m)
      end.
      { unfold console_error.
        frame;
          first [ apply keeps_fetch_url; reflexivity
                | apply keeps_Response_json; reflexivity ]. }
      match goal with
      | |- profilesMetadata (snd (let (_, _) := ?m w1 in _)) = _ =>
          specialize (Hm w1); destruct (m w1) as [[j|e] w2]
      end; cbn in *; exact Hm.
    + exists l. split; [|exact Hlen]. cbn. exact Hl.
  - exists []%list. cbn. rewrite app_nil_r. split; [reflexivity | cbn; lia].
Qed.

(** X11. A cache entry is final: once a key resolves from the cache to
    an event, it resolves to that same event after any further profile
    resolution or invoice request, for any key; nothing replaces or
    removes it. *)
Theorem cache_entry_is_final (E : Env) (publicKey : string) (ev : Event)
    (w : World) :
  cached publicKey w = Some ev ->
  (forall other,
     cached publicKey (snd (getProfileMetadata E other w)) = Some ev) /\
  (forall destination message amount eventId,
     cached publicKey
       (snd (createInvoice E destination message amount eventId w)) =
     Some ev).
Proof.
  intros Hhit. unfold cached in *. split.
  - intros other.
    destruct (getProfileMetadata_cache E other w) as (l & -> & _).
    apply find_app_hit. exact Hhit.
  - intros destination message amount eventId.
    destruct (createInvoice_cache E destination message amount eventId w)
      as (l & -> & _).
    apply find_app_hit. exact Hhit.
Qed.

Lemma cache_entry_is_final_witness :
  cached Scenario.P
    (snd (getProfileMetadata Scenario.zapOk Scenario.P Scenario.fresh)) =
    Some Scenario.profileOfP /\
  cached Scenario.P
    (snd (createInvoice Scenario.zapOk Scenario.recipient "gm" 1000 "abc123"
            (snd (getProfileMetadata Scenario.zapOk Scenario.P
                    Scenario.fresh)))) =
    Some Scenario.profileOfP.
Proof.
  split; [reflexivity|].
  exact (proj2
    (cache_entry_is_final Scenario.zapOk Scenario.P Scenario.profileOfP
       (snd (getProfileMetadata Scenario.zapOk Scenario.P Scenario.fresh))
       eq_refl)
    Scenario.recipient "gm" 1000%Z "abc123").
Defined.

(** X12. When resolutions run one after the other (none starts while
    another waits for the relays) and the relays only answer with events of
    a requested author, the cache holds at most one event per public key: a
    cache without two events of one key stays so after every resolution that
    ran to its end. *)
Theorem cache_keys_unique (E : Env) (publicKey : string) (w : World) :
  relay_faithful E ->
  NoDup (map ev_pubkey (profilesMetadata w)) ->
  NoDup (map ev_pubkey
           (profilesMetadata (snd (getProfileMetadata E publicKey w)))).
Proof.
  intros Hrelay Hnodup. rewrite getProfileMetadata_eq.
  destruct (cached publicKey w) eqn:Hmiss; [exact Hnodup|].
  cbv zeta.
  destruct (relayPool_get E _ _ _) as [[ev|]|e] eqn:Hget; cbn;
    try exact Hnodup.
  apply Hrelay in Hget. cbn in Hget. destruct Hget as [Hauthor|[]].
  rewrite map_app. cbn.
  assert (Hfresh : ~ In (ev_pubkey ev) (map ev_pubkey (profilesMetadata w))).
  { intros Hin. apply in_map_iff in Hin as (old & Hkey & Hold).
    unfold cached in Hmiss.
    pose proof (find_none _ _ Hmiss old Hold) as Hneq. cbn in Hneq.
    rewrite Hkey, <- Hauthor, String.eqb_refl in Hneq. discriminate Hneq. }
  clear - Hnodup Hfresh.
  induction (map ev_pubkey (profilesMetadata w)) as [|k ks IH]; cbn.
  - constructor; [intros [] | constructor].
  - inversion Hnodup as [|? ? Hk Hks]; subst.
    constructor.
    + intros Hin. apply in_app_or in Hin as [Hin|[Hin|[]]].
      * exact (Hk Hin).
      * apply Hfresh. left. symmetry. exact Hin.
    + apply IH; [exact Hks|]. intros Hin. apply Hfresh. right. exact Hin.
Qed.

Lemma scenario_relay_faithful :
  relay_faithful Scenario.zapOk.
Proof.
  intros n relays f ev. cbn. unfold Scenario.relayWithP.
  destruct (existsb (String.eqb Scenario.P) (authors f)) eqn:Hex;
    [|discriminate].
  intros H. injection H as <-.
  apply existsb_exists in Hex as (a & Hin & Heq).
  apply String.eqb_eq in Heq. subst a. exact Hin.
Defined.

Lemma cache_keys_unique_witness :
  NoDup (map ev_pubkey
           (profilesMetadata
              (snd (getProfileMetadata Scenario.zapOk Scenario.P
                      Scenario.fresh)))).
Proof.
  exact (cache_keys_unique Scenario.zapOk Scenario.P Scenario.fresh
           scenario_relay_faithful (NoDup_nil _)).
Defined.

(* ================================================================== *)
(** ** More about the invoice flow *)

(** Case analysis on the innermost scrutinee of a run recorded in [H]. *)
Ltac split_run H :=
  repeat match type of H with
         | context [match ?x with _ => _ end] =>
             lazymatch x with
             | context [match _ with _ => _ end] => fail
             | _ => destruct x eqn:?; cbn in H
             end
         end.

Lemma getProfileMetadata_effects (E : Env) (publicKey : string) (w : World) :
  exists r w1,
    getProfileMetadata E publicKey w = (Ok r, w1) /\
    store w1 = store w /\
    sessionStorage w1 = sessionStorage w /\
    fetch_calls w1 = fetch_calls w /\
    json_calls w1 = json_calls w /\
    (relay_queries w1 <= relay_queries w + 1)%nat.
Proof.
  rewrite getProfileMetadata_eq.
  destruct (cached publicKey w).
  - do 2 eexists. split; [reflexivity|]. cbn. repeat split. lia.
  - cbv zeta. destruct (relayPool_get E _ _ _) as [[ev|]|e];
      do 2 eexists; (split; [reflexivity|]); cbn; repeat split; lia.
Qed.

(** X13. The boundary of the invoice flow, for every input and every
    environment.  [createInvoice] never changes the session or the slot; it
    calls [relayPool.get] at most once, issues the invoice request of line
    231 at most once and calls [json()] on its response (line 239) at most
    once.  When it throws, the error it throws is the last one it logged;
    when it returns, it has issued that request exactly once and parsed its
    response exactly once.  (What [getZapEndpoint] of the library requests
    and parses for its own lookup is inside the library and not counted
    here.) *)
Theorem createInvoice_boundary (E : Env) (destination message : string)
    (amount : Z) (eventId : string) (w : World) :
  exists r w',
    createInvoice E destination message amount eventId w = (r, w') /\
    store w' = store w /\
    sessionStorage w' = sessionStorage w /\
    (List.length (fetch_calls w') <= List.length (fetch_calls w) + 1)%nat /\
    (json_calls w' <= json_calls w + 1)%nat /\
    (relay_queries w' <= relay_queries w + 1)%nat /\
    match r with
    | Throw err =>
        exists l,
          console_errors w' = (l ++ [("Unable to create invoice", err)])%list
    | Ok _ =>
        List.length (fetch_calls w') = S (List.length (fetch_calls w)) /\
        json_calls w' = S (json_calls w)
    end.
Proof.
  destruct (createInvoice E destination message amount eventId w)
    as [r w'] eqn:Hrun.
  exists r, w'. split; [reflexivity|].
  unfold createInvoice, console_error, fetch_url, Response_json in Hrun.
  js_run.
  destruct (decode E destination) as [publicKey|e0].
  2:{ injection Hrun as <- <-. cbn. repeat split; try lia.
      eexists. reflexivity. }
  destruct (getProfileMetadata_effects E publicKey w)
    as (p & w1 & Hp & Hstore & Hslot & Hfetch & Hjson & Hrelay).
  rewrite Hp in Hrun. cbn in Hrun.
  split_run Hrun; injection Hrun as <- <-; cbn;
    rewrite ?Hstore, ?Hslot, ?Hfetch, ?Hjson, ?length_app; cbn;
    repeat split; try lia; try (eexists; reflexivity).
Qed.

(** X14. No invoice request without every stage before it.  For a safe
    amount: if [createInvoice] issued its invoice request (the fetch of
    line 231), then the recipient decoded, its profile was resolved, the
    profile gave a non-empty endpoint, the zap request was built from the
    recipient, the event id, the amount as given, the relay list and the
    message, the endpoint parsed as a URL, and the one URL requested is the
    one built from them.  A failure of any stage therefore aborts the flow
    before the invoice request; the relay query and the lookup of the
    endpoint, which belong to earlier stages, may have taken place. *)
Theorem createInvoice_request_needs_all_stages (E : Env)
    (destination message : string) (amount : Z) (eventId : string)
    (w : World) :
  safe_amount amount ->
  fetch_calls (snd (createInvoice E destination message amount eventId w)) <>
    fetch_calls w ->
  exists publicKey metadata endpoint zapRequestEvent callbackUrl,
    decode E destination = Ok publicKey /\
    fst (getProfileMetadata E publicKey w) = Ok (Some metadata) /\
    getZapEndpoint E metadata = Ok (Some endpoint) /\
    truthy endpoint = true /\
    makeZapRequest E (mkZapArgs publicKey eventId amount relayList message) =
      Ok zapRequestEvent /\
    URL_new E endpoint = Ok callbackUrl /\
    fetch_calls (snd (createInvoice E destination message amount eventId w)) =
      (fetch_calls w ++
       [invoiceUrl callbackUrl message amount zapRequestEvent])%list.
Proof.
  intros _.
  destruct (createInvoice E destination message amount eventId w)
    as [r w'] eqn:Hrun.
  cbn [snd]. intros Hfetched.
  unfold createInvoice, console_error, fetch_url, Response_json in Hrun.
  js_run.
  destruct (decode E destination) as [publicKey|e0].
  2:{ injection Hrun as <- <-. now elim Hfetched. }
  destruct (getProfileMetadata_effects E publicKey w)
    as (p & w1 & Hp & _ & _ & Hfetch & _ & _).
  rewrite Hp in Hrun. cbn in Hrun.
  destruct p as [metadata|];
    [|injection Hrun as <- <-; cbn in Hfetched; rewrite Hfetch in Hfetched;
      now elim Hfetched].
  destruct (getZapEndpoint E metadata) as [[endpoint|]|e1] eqn:Hlnurl;
    cbn in Hrun;
    try (injection Hrun as <- <-; cbn in Hfetched;
         rewrite Hfetch in Hfetched; now elim Hfetched).
  destruct (truthy endpoint) eqn:Htruthy; cbn in Hrun;
    try (injection Hrun as <- <-; cbn in Hfetched;
         rewrite Hfetch in Hfetched; now elim Hfetched).
  destruct (makeZapRequest E _) as [zr|e2] eqn:Hzap; cbn in Hrun;
    try (injection Hrun as <- <-; cbn in Hfetched;
         rewrite Hfetch in Hfetched; now elim Hfetched).
  destruct (URL_new E endpoint) as [url|e3] eqn:Hurl; cbn in Hrun;
    try (injection Hrun as <- <-; cbn in Hfetched;
         rewrite Hfetch in Hfetched; now elim Hfetched).
  exists publicKey, metadata, endpoint, zr, url.
  rewrite Hp. repeat split; try assumption; try reflexivity.
  clear Hfetched. split_run Hrun; injection Hrun as <- <-; cbn;
    rewrite Hfetch; reflexivity.
Qed.

Lemma createInvoice_request_needs_all_stages_witness :
  safe_amount 1000 /\
  fetch_calls
    (snd (createInvoice Scenario.zap500 Scenario.recipient "gm" 1000 "abc123"
            Scenario.fresh)) <> fetch_calls Scenario.fresh /\
  exists publicKey metadata endpoint zapRequestEvent callbackUrl,
    decode Scenario.zap500 Scenario.recipient = Ok publicKey /\
    fst (getProfileMetadata Scenario.zap500 publicKey Scenario.fresh) =
      Ok (Some metadata) /\
    getZapEndpoint Scenario.zap500 metadata = Ok (Some endpoint) /\
    truthy endpoint = true /\
    makeZapRequest Scenario.zap500
      (mkZapArgs publicKey "abc123" 1000 relayList "gm") =
      Ok zapRequestEvent /\
    URL_new Scenario.zap500 endpoint = Ok callbackUrl /\
    fetch_calls
      (snd (createInvoice Scenario.zap500 Scenario.recipient "gm" 1000
              "abc123" Scenario.fresh)) =
      (fetch_calls Scenario.fresh ++
       [invoiceUrl callbackUrl "gm" 1000 zapRequestEvent])%list.
Proof.
  assert (H : fetch_calls
                (snd (createInvoice Scenario.zap500 Scenario.recipient "gm"
                        1000 "abc123" Scenario.fresh)) <>
              fetch_calls Scenario.fresh)
    by (vm_compute; discriminate).
  assert (Hsafe : safe_amount 1000) by (unfold safe_amount; cbn; lia).
  split; [exact Hsafe|]. split; [exact H|].
  exact (createInvoice_request_needs_all_stages Scenario.zap500
           Scenario.recipient "gm" 1000 "abc123" Scenario.fresh Hsafe H).
Defined.

(** X15. When the recipient decodes and no profile is found for it (no
    cache entry, and the relays have none or fail), [createInvoice] fails
    with the error named ProfileMetadata, logs it once and throws it again,
    without any HTTP request. *)
Theorem createInvoice_unknown_profile (E : Env) (destination message : string)
    (amount : Z) (eventId publicKey : string) (w w1 : World) :
  decode E destination = Ok publicKey ->
  getProfileMetadata E publicKey w = (Ok None, w1) ->
  exists w',
    createInvoice E destination message amount eventId w =
      (Throw ProfileMetadataError, w') /\
    fetch_calls w' = fetch_calls w /\
    json_calls w' = json_calls w /\
    console_errors w' =
      (console_errors w1 ++
       [("Unable to create invoice", ProfileMetadataError)])%list.
Proof.
  intros Hdecode Hprofile.
  destruct (getProfileMetadata_effects E publicKey w)
    as (p & w1' & Hp & _ & _ & Hfetch & Hjson & _).
  rewrite Hprofile in Hp. injection Hp as <- <-.
  unfold createInvoice, console_error. js_run.
  rewrite Hdecode, Hprofile. cbn.
  eexists. split; [reflexivity|]. cbn. repeat split; assumption.
Qed.

Lemma createInvoice_unknown_profile_witness :
  exists w',
    createInvoice Scenario.noExtension Scenario.recipient "gm" 1000 "abc123"
      Scenario.fresh = (Throw ProfileMetadataError, w') /\
    fetch_calls w' = fetch_calls Scenario.fresh /\
    json_calls w' = json_calls Scenario.fresh /\
    console_errors w' =
      [("Unable to create invoice", ProfileMetadataError)]%list.
Proof.
  exact (createInvoice_unknown_profile Scenario.noExtension Scenario.recipient
           "gm" 1000 "abc123" Scenario.P Scenario.fresh
           (snd (getProfileMetadata Scenario.noExtension Scenario.P
                   Scenario.fresh))
           eq_refl eq_refl).
Defined.

(** X16. For a safe amount: when every stage succeeds and the invoice
    endpoint answers with a success status and a body that parses,
    [createInvoice] returns the parsed body as it is, after issuing the
    invoice request exactly once, to the URL built from the endpoint, the
    message, the amount and the zap request, and calling [json()] on its
    response exactly once; the flow logs nothing.  The zap request is built
    from the amount as the caller gave it, while the amount parameter of
    the URL is the decimal text of the amount times 1000. *)
Theorem createInvoice_returns_body (E : Env) (destination message : string)
    (amount : Z) (eventId publicKey : string) (metadata : Event)
    (endpoint : string) (zapRequestEvent : EventTemplate) (callbackUrl : URL)
    (response : Response) (invoice : JSON) (w w1 : World) :
  safe_amount amount ->
  decode E destination = Ok publicKey ->
  getProfileMetadata E publicKey w = (Ok (Some metadata), w1) ->
  getZapEndpoint E metadata = Ok (Some endpoint) ->
  truthy endpoint = true ->
  makeZapRequest E (mkZapArgs publicKey eventId amount relayList message) =
    Ok zapRequestEvent ->
  URL_new E endpoint = Ok callbackUrl ->
  fetch E (List.length (fetch_calls w))
    (invoiceUrl callbackUrl message amount zapRequestEvent) = Ok response ->
  ok response = true ->
  body_json response = Ok invoice ->
  exists w',
    createInvoice E destination message amount eventId w = (Ok invoice, w') /\
    json_calls w' = S (json_calls w) /\
    fetch_calls w' =
      (fetch_calls w ++
       [invoiceUrl callbackUrl message amount zapRequestEvent])%list /\
    console_errors w' = console_errors w1 /\
    In ("amount", Number_toString (amount * 1000))
       (invoiceParams callbackUrl message amount zapRequestEvent).
Proof.
  intros _ Hdecode Hprofile Hlnurl Htruthy Hzap Hurl Hfetch Hstatus Hbody.
  destruct (createInvoice_success E destination message amount eventId
              publicKey metadata endpoint zapRequestEvent callbackUrl
              response invoice w w1 Hdecode Hprofile Hlnurl Htruthy Hzap Hurl
              Hfetch Hstatus Hbody) as (w' & Hrun & Hjson & Hf & Hlog).
  exists w'. repeat split; try assumption.
  exact (proj1 (proj2 (invoiceParams_merge callbackUrl message amount
                         zapRequestEvent))).
Qed.

Lemma createInvoice_returns_body_witness :
  safe_amount 1000 /\
  exists w',
    createInvoice Scenario.zapOk Scenario.recipient "gm" 1000 "abc123"
      Scenario.fresh = (Ok Scenario.invoice, w') /\
    json_calls w' = 1%nat /\
    List.length (fetch_calls w') = 1%nat /\
    console_errors w' = []%list.
Proof.
  assert (Hsafe : safe_amount 1000) by (unfold safe_amount; cbn; lia).
  split; [exact Hsafe|].
  destruct (createInvoice_returns_body Scenario.zapOk Scenario.recipient "gm"
              1000 "abc123" Scenario.P Scenario.profileOfP Scenario.endpoint
              (mkTemplate 9734 1700000000 "gm"
                 [ ["p"; Scenario.P]; ["amount"; "1000"];
                   "relays" :: relayList; ["e"; "abc123"] ]%list)
              (mkURL "https:" "pay.example" "/cb" [("foo", "1")]%list)
              (mkResponse 200 (Ok Scenario.invoice)) Scenario.invoice
              Scenario.fresh
              (snd (getProfileMetadata Scenario.zapOk Scenario.P
                      Scenario.fresh))
              Hsafe
              eq_refl eq_refl eq_refl eq_refl eq_refl eq_refl eq_refl eq_refl
              eq_refl)
    as (w' & Hrun & Hjson & Hfetch & Hlog & _).
  exists w'. split; [exact Hrun|]. split; [exact Hjson|].
  split; [rewrite Hfetch; reflexivity | exact Hlog].
Defined.

(* ------------------------------------------------------------------ *)
(** *** No parameter twice *)

Lemma obj_set_keys (k v : string) (o : JsObject) :
  map fst (obj_set k v o) =
  if existsb (String.eqb k) (map fst o) then map fst o
  else (map fst o ++ [k])%list.
Proof.
  induction o as [|[k' v'] o IH]; cbn; [reflexivity|].
  rewrite (String.eqb_sym k k').
  destruct (String.eqb k' k); cbn; [reflexivity|].
  rewrite IH. destruct (existsb (String.eqb k) (map fst o)); reflexivity.
Qed.

Lemma obj_set_NoDup (k v : string) (o : JsObject) :
  NoDup (map fst o) -> NoDup (map fst (obj_set k v o)).
Proof.
  intros Hnodup. rewrite obj_set_keys.
  destruct (existsb (String.eqb k) (map fst o)) eqn:Hex; [exact Hnodup|].
  apply NoDup_rev in Hnodup. rewrite <- (rev_involutive (_ ++ _)).
  apply NoDup_rev. rewrite rev_app_distr. cbn. constructor; [|exact Hnodup].
  intros Hin. apply in_rev in Hin.
  assert (Hsome : existsb (String.eqb k) (map fst o) = true).
  { apply existsb_exists. exists k. split; [exact Hin|].
    apply String.eqb_refl. }
  congruence.
Qed.

Lemma Object_fromEntries_NoDup (entries : list (string * string)) :
  NoDup (map fst (Object_fromEntries entries)).
Proof.
  unfold Object_fromEntries.
  assert (H : forall o, NoDup (map fst o) ->
                NoDup (map fst (fold_left
                  (fun o0 kv => obj_set (fst kv) (snd kv) o0) entries o))).
  { induction entries as [|kv entries IH]; intros o Ho; [exact Ho|].
    cbn. apply IH. apply obj_set_NoDup. exact Ho. }
  apply H. constructor.
Qed.

Lemma insertIndexed_Permutation (n : N) (kv : string * string)
    (l : list (N * (string * string))) :
  Permutation (insertIndexed n kv l) ((n, kv) :: l).
Proof.
  induction l as [|[m kv'] l IH]; cbn; [reflexivity|].
  destruct (n <? m)%N; [reflexivity|].
  rewrite IH. apply perm_swap.
Qed.

(** Enumeration is a rearrangement of the properties. *)
Lemma Object_entries_Permutation (o : JsObject) :
  Permutation (Object_entries o) o.
Proof.
  unfold Object_entries. induction o as [|kv o IH]; [reflexivity|].
  cbn. destruct (arrayIndex (fst kv)) as [n|].
  - rewrite insertIndexed_Permutation. cbn. constructor. exact IH.
  - rewrite <- Permutation_middle. constructor. exact IH.
Qed.

Lemma obj_set_In_inv (k v k' v' : string) (o : JsObject) :
  In (k', v') (obj_set k v o) -> k' <> k -> In (k', v') o.
Proof.
  intros Hin Hneq. induction o as [|[k0 v0] o IH]; cbn in *.
  - destruct Hin as [H|[]]. injection H as <- _. now elim Hneq.
  - destruct (String.eqb k0 k) eqn:Hk.
    + apply String.eqb_eq in Hk. subst k0. destruct Hin as [H|H].
      * injection H as <- _. now elim Hneq.
      * right. exact H.
    + destruct Hin as [H|H]; [left; exact H | right; exact (IH H)].
Qed.

Lemma NoDup_keys_functional (l : list (string * string)) :
  NoDup (map fst l) ->
  forall k v v', In (k, v) l -> In (k, v') l -> v = v'.
Proof.
  induction l as [|[k0 v0] l IH]; cbn; intros Hl k v v' H1 H2;
    [contradiction|].
  inversion Hl as [|? ? Hk0 Hl']; subst.
  destruct H1 as [H1|H1], H2 as [H2|H2].
  - congruence.
  - injection H1 as -> ->. elim Hk0.
    apply in_map_iff. exists (k, v'). split; [reflexivity | exact H2].
  - injection H2 as -> ->. elim Hk0.
    apply in_map_iff. exists (k, v). split; [reflexivity | exact H1].
  - exact (IH Hl' k v v' H1 H2).
Qed.

(** X17. The query of the invoice request, exactly, for a safe amount (a
    whole number of sats whose thousandfold is at most 2^53).  No parameter
    appears twice, and the parameters are: comment with the message, amount
    with the decimal text of the amount times 1000, nostr with the JSON text
    of the zap request, and the parameters of the endpoint under any other
    name.  An endpoint whose URL already carries a comment, an amount or a
    nostr parameter cannot make the request carry its own value. *)
Theorem invoiceParams_exact (callbackUrl : URL) (message : string)
    (amount : Z) (zapRequestEvent : EventTemplate) :
  safe_amount amount ->
  NoDup (map fst (invoiceParams callbackUrl message amount zapRequestEvent)) /\
  forall k v,
    In (k, v) (invoiceParams callbackUrl message amount zapRequestEvent) <->
    (k = "comment" /\ v = message) \/
    (k = "amount" /\ v = Number_toString (amount * 1000)) \/
    (k = "nostr" /\
     v = JSON_stringify (JSON_of_EventTemplate zapRequestEvent)) \/
    (k <> "comment" /\ k <> "amount" /\ k <> "nostr" /\
     In (k, v) (Object_fromEntries (searchParams callbackUrl))).
Proof.
  intros _.
  assert (Hnodup : NoDup (map fst (invoiceParams callbackUrl message amount
                                     zapRequestEvent))).
  { unfold invoiceParams.
    eapply Permutation_NoDup;
      [apply Permutation_map; symmetry; apply Object_entries_Permutation|].
    do 3 apply obj_set_NoDup. apply Object_fromEntries_NoDup. }
  split; [exact Hnodup|].
  destruct (invoiceParams_merge callbackUrl message amount zapRequestEvent)
    as (Hc & Ha & Hn & Hkeep).
  intros k v. split.
  - intros Hin.
    destruct (string_dec k "comment") as [->|Hkc];
      [left; split; [reflexivity|];
       exact (NoDup_keys_functional _ Hnodup _ _ _ Hin Hc)|].
    destruct (string_dec k "amount") as [->|Hka];
      [right; left; split; [reflexivity|];
       exact (NoDup_keys_functional _ Hnodup _ _ _ Hin Ha)|].
    destruct (string_dec k "nostr") as [->|Hkn];
      [right; right; left; split; [reflexivity|];
       exact (NoDup_keys_functional _ Hnodup _ _ _ Hin Hn)|].
    right. right. right. repeat split; try assumption.
    unfold invoiceParams in Hin.
    apply (Permutation_in _ (Object_entries_Permutation _)) in Hin.
    apply obj_set_In_inv in Hin; [|exact Hkn].
    apply obj_set_In_inv in Hin; [|exact Hka].
    apply obj_set_In_inv in Hin; [|exact Hkc].
    exact Hin.
  - intros [[-> ->]|[[-> ->]|[[-> ->]|(Hkc & Hka & Hkn & Hin)]]].
    + exact Hc.
    + exact Ha.
    + exact Hn.
    + exact (Hkeep k v Hin Hkc Hka Hkn).
Qed.

Lemma invoiceParams_exact_witness :
  safe_amount 1000 /\
  invoiceParams
    (mkURL "https:" "pay.example" "/cb"
       [("foo", "1"); ("amount", "7"); ("foo", "2")]%list)
    "gm" 1000 (mkTemplate 9734 0 "gm" []) =
    [ ("foo", "2"); ("amount", "1000000"); ("comment", "gm");
      ("nostr",
       JSON_stringify (JSON_of_EventTemplate (mkTemplate 9734 0 "gm" []))) ]%list /\
  forall v,
    In ("amount", v)
       (invoiceParams
          (mkURL "https:" "pay.example" "/cb"
             [("foo", "1"); ("amount", "7"); ("foo", "2")]%list)
          "gm" 1000 (mkTemplate 9734 0 "gm" [])) ->
    v = "1000000".
Proof.
  assert (Hsafe : safe_amount 1000) by (unfold safe_amount; cbn; lia).
  split; [exact Hsafe|]. split; [reflexivity|].
  intros v Hin.
  destruct (proj1 (proj2 (invoiceParams_exact
                     (mkURL "https:" "pay.example" "/cb"
                        [("foo", "1"); ("amount", "7"); ("foo", "2")]%list)
                     "gm" 1000 (mkTemplate 9734 0 "gm" []) Hsafe)
                   "amount" v) Hin)
    as [[H _]|[[_ H]|[[H _]|(_ & H & _)]]];
    [discriminate H | exact H | discriminate H | now elim H].
Defined.

(* ================================================================== *)
(** ** Payment verification *)

(** X18. [checkPayment] issues exactly one HTTP request, to the URL as
    given, and never touches the session.  A rejected request throws its
    error; a status outside 200-299 throws the error named VerifyRequest
    and the body is not parsed; otherwise the result is the outcome of
    parsing the body.  Every error it throws it has logged last. *)
Theorem checkPayment_outcome (E : Env) (verify : string) (w : World) :
  exists r w',
    checkPayment E verify w = (r, w') /\
    fetch_calls w' = (fetch_calls w ++ [verify])%list /\
    store w' = store w /\
    sessionStorage w' = sessionStorage w /\
    match fetch E (List.length (fetch_calls w)) verify with
    | Throw e => r = Throw e /\ json_calls w' = json_calls w
    | Ok response =>
        if ok response
        then r = body_json response /\ json_calls w' = S (json_calls w)
        else r = Throw VerifyRequestError /\ json_calls w' = json_calls w
    end /\
    match r with
    | Throw e =>
        console_errors w' =
          (console_errors w ++ [("Unable to verify payment", e)])%list
    | Ok _ => console_errors w' = console_errors w
    end.
Proof.
  unfold checkPayment, console_error, fetch_url, Response_json. js_run.
  destruct (fetch E (List.length (fetch_calls w)) verify) as [response|e].
  - destruct (ok response); cbn.
    + destruct (body_json response);
        do 2 eexists; (split; [reflexivity|]); cbn; repeat split.
    + do 2 eexists. split; [reflexivity|]. cbn. repeat split.
  - do 2 eexists. split; [reflexivity|]. cbn. repeat split.
Qed.

(* ================================================================== *)
(** ** A slot the module cannot read back *)

(** X19. The module body derives the public key of whatever non-empty text
    the slot holds, unguarded: when the derivation rejects it, evaluating
    the module throws that error, nobody is signed in, and the slot is left
    as it is, so that every later reload fails the same way.  An empty text
    in the slot is taken for no key. *)
Theorem restart_unreadable_slot (E : Env) (sk : string) (e : JsError)
    (w : World) :
  sessionStorage w = Some sk ->
  (truthy sk = true -> getPublicKey E (Buffer_from_hex sk) = Throw e) ->
  exists w',
    restart E w = ((if truthy sk then Throw e else Ok tt), w') /\
    session w' = LoggedOut /\
    same_outside w w' /\
    restart E w' = ((if truthy sk then Throw e else Ok tt), w').
Proof.
  intros Hslot Hpk.
  exists (with_store None (with_profilesMetadata [] w)).
  assert (Hrun : forall w0, sessionStorage w0 = Some sk ->
            restart E w0 =
            ((if truthy sk then Throw e else Ok tt),
             with_store None (with_profilesMetadata [] (with_store None w0)))).
  { intros w0 H0. unfold restart, nostrAuth_init. js_run. cbn. rewrite H0.
    destruct (truthy sk); [rewrite (Hpk eq_refl)|]; reflexivity. }
  split; [exact (Hrun w Hslot)|].
  split; [reflexivity|].
  split; [unfold same_outside; cbn; repeat split|].
  exact (Hrun _ Hslot).
Qed.

Lemma restart_unreadable_slot_witness :
  exists w',
    restart Scenario.noExtension
      (with_sessionStorage (Some "not a key") Scenario.fresh) =
      (Throw (mkError "Error" "invalid private key"), w') /\
    session w' = LoggedOut /\
    same_outside (with_sessionStorage (Some "not a key") Scenario.fresh) w' /\
    restart Scenario.noExtension w' =
      (Throw (mkError "Error" "invalid private key"), w').
Proof.
  exact (restart_unreadable_slot Scenario.noExtension "not a key"
           (mkError "Error" "invalid private key")
           (with_sessionStorage (Some "not a key") Scenario.fresh)
           eq_refl (fun _ => eq_refl)).
Defined.
